(** * FileDiffHunks: hunk rows and the tooltip pipelines

    A shallow embedding of [web/src/repo/compare/FileDiffHunks.tsx]:

    - [Hunk]: the [DiffBoundary] and [DiffHunk] components, i.e. how a hunk
      body is cut into rows and how the two line counters run over them;
    - [Tooltips]: the [FileDiffHunks] component, i.e. the two RxJS pipelines
      set up by [setElement] (gestures and docking), [setFixedTooltip], the
      tooltip actions and the remaining listeners, as a transition system
      driven by DOM events, timers and lookup responses. *)

From Stdlib Require Import ZArith Lia Ascii String.
From stdpp Require Import gmap strings list pretty.

(** ** Hunks *)

Module Hunk.

Local Open Scope Z_scope.

(** [GQL.IFileDiffHunkRange] and [GQL.IFileDiffHunk], with the fields the
    component reads.  Line numbers are JavaScript numbers holding integers;
    they are modelled as [Z]. *)
Record Range := { startLine : Z; lines : option Z }.

Record IFileDiffHunk := {
  oldRange : Range;
  newRange : Range;
  section : option string;
  body : string
}.

(** *** JavaScript string and array primitives used by [DiffHunk] *)

Definition newline : ascii := "010"%char.

(** [s.split('\n')]: the segments between line feeds; a string without line
    feed is one segment, and so is the empty string. *)
Fixpoint split_newline (s : string) : list string :=
  match s with
  | EmptyString => [EmptyString]
  | String c rest =>
      if Ascii.eqb c newline then EmptyString :: split_newline rest
      else match split_newline rest with
           | seg :: segs => String c seg :: segs
           | [] => [String c EmptyString]
           end
  end.

(** [a.slice(0, -1)]: all elements but the last one. *)
Definition slice_0_minus1 {A} (a : list A) : list A :=
  take (length a - 1)%nat a.

(** [line[0]]: the first character, [undefined] on the empty string. *)
Definition char0 (line : string) : option ascii :=
  match line with
  | EmptyString => None
  | String c _ => Some c
  end.

(** [line[0] === c] and [line[0] !== c]. *)
Definition char0_is (line : string) (c : ascii) : bool :=
  match char0 line with
  | Some d => Ascii.eqb d c
  | None => false
  end.

Definition char0_isnt (line : string) (c : ascii) : bool :=
  negb (char0_is line c).

(** Template-literal printing of an integer. *)
Definition show (n : Z) : string := pretty n.

(** [cond ? name : ''] *)
Definition class_if (cond : bool) (name : string) : string :=
  if cond then name else EmptyString.

(** [props.section && `@@ ${props.section}`]: nothing for [null] and for the
    empty string. *)
Definition section_text (sec : option string) : string :=
  match sec with
  | Some s => if String.eqb s EmptyString then EmptyString else "@@ " +:+ s
  | None => EmptyString
  end.

(** *** Rendered elements *)

(** A line-number cell: [<td class="diff-hunk__num" data-line data-part id>]
    or the empty cell [<td class="diff-hunk__num diff-hunk__num--empty">]. *)
Inductive NumCell :=
  | NumFilled (dataLine : Z) (dataPart : string) (id : string)
  | NumEmpty.

(** A [<tr>] of a hunk: its key, its class attribute, the two line-number
    cells (absent when line numbers are off) and the content cell's text. *)
Record Row := {
  key : nat;
  className : string;
  nums : option (NumCell * NumCell);
  content : string
}.

(** The [<tr class="diff-boundary">] that precedes the rows. *)
Record Boundary := {
  numClass : option string;
  contentClass : string;
  code : option string
}.

(** [DiffBoundary] *)
Definition DiffBoundary (oldR newR : Range) (sec : option string)
    (lineNumberClassName contentClassName : string) (lineNumbers : bool)
    : Boundary :=
  {| numClass :=
       if lineNumbers
       then Some ("diff-boundary__num " +:+ lineNumberClassName)
       else None;
     contentClass := "diff-boundary__content " +:+ contentClassName;
     code :=
       match lines oldR, lines newR with
       | Some ol, Some nl =>
           Some ("@@ -" +:+ show (startLine oldR) +:+ "," +:+ show ol +:+
                 " +" +:+ show (startLine newR) +:+ "," +:+ show nl +:+
                 " " +:+ section_text sec)
       | _, _ => None
       end |}.

(** The two counters [oldLine] and [newLine] that the [map] callback of
    [DiffHunk] mutates. *)
Record Counters := { oldLine : Z; newLine : Z }.

(** One call of the [map] callback: bump the counters, then build the row
    from the bumped counters. *)
Definition render_line (fileDiffAnchor hash : string) (lineNumbers : bool)
    (cnt : Counters) (i : nat) (line : string) : Counters * Row :=
  let oldLine' := if char0_isnt line "+" then oldLine cnt + 1 else oldLine cnt in
  let newLine' := if char0_isnt line "-" then newLine cnt + 1 else newLine cnt in
  let oldAnchor := fileDiffAnchor +:+ "L" +:+ show (oldLine' - 1) in
  let newAnchor := fileDiffAnchor +:+ "R" +:+ show (newLine' - 1) in
  ({| oldLine := oldLine'; newLine := newLine' |},
   {| key := i;
      className :=
        "diff-hunk__line " +:+
        class_if (char0_is line " ") "diff-hunk__line--both" +:+ " " +:+
        class_if (char0_is line "-") "diff-hunk__line--deletion" +:+ " " +:+
        class_if (char0_is line "+") "diff-hunk__line--addition" +:+ " " +:+
        class_if
          ((char0_isnt line "+" && String.eqb hash ("#" +:+ oldAnchor)) ||
           (char0_isnt line "-" && String.eqb hash ("#" +:+ newAnchor)))
          "diff-hunk__line--active";
      nums :=
        if lineNumbers then
          Some (if char0_isnt line "+"
                then NumFilled (oldLine' - 1) "old" oldAnchor
                else NumEmpty,
                if char0_isnt line "-"
                then NumFilled (newLine' - 1) "new" newAnchor
                else NumEmpty)
        else None;
      content := line |}).

(** [lines.map((line, i) => ...)] with the counters threaded through, from
    index [i] on. *)
Fixpoint render_lines (fileDiffAnchor hash : string) (lineNumbers : bool)
    (cnt : Counters) (i : nat) (ls : list string) : list Row :=
  match ls with
  | [] => []
  | line :: rest =>
      let '(cnt', row) := render_line fileDiffAnchor hash lineNumbers cnt i line in
      row :: render_lines fileDiffAnchor hash lineNumbers cnt' (S i) rest
  end.

(** The lines that get a row: [hunk.body.split('\n').slice(0, -1)]. *)
Definition body_lines (b : string) : list string :=
  slice_0_minus1 (split_newline b).

(** [DiffHunk]: the boundary row, then one row per line. *)
Definition DiffHunk (fileDiffAnchor : string) (hunk : IFileDiffHunk)
    (lineNumbers : bool) (hash : string) : Boundary * list Row :=
  (DiffBoundary (oldRange hunk) (newRange hunk) (section hunk)
     "diff-hunk__num--both" "diff-hunk__content" lineNumbers,
   render_lines fileDiffAnchor hash lineNumbers
     {| oldLine := startLine (oldRange hunk);
        newLine := startLine (newRange hunk) |}
     0%nat (body_lines (body hunk))).

Definition rows (fileDiffAnchor : string) (hunk : IFileDiffHunk)
    (lineNumbers : bool) (hash : string) : list Row :=
  snd (DiffHunk fileDiffAnchor hunk lineNumbers hash).

(** *** Reading a rendered row back *)

Definition cell_line (c : NumCell) : option Z :=
  match c with
  | NumFilled n _ _ => Some n
  | NumEmpty => None
  end.

(** The old and the new line number a row displays. *)
Definition row_old (r : Row) : option Z :=
  match nums r with Some (o, _) => cell_line o | None => None end.

Definition row_new (r : Row) : option Z :=
  match nums r with Some (_, n) => cell_line n | None => None end.

(** The class attribute of a row that is not the active one, by the three
    marker classes it carries. *)
Definition line_class (both deletion addition : bool) : string :=
  "diff-hunk__line " +:+
  class_if both "diff-hunk__line--both" +:+ " " +:+
  class_if deletion "diff-hunk__line--deletion" +:+ " " +:+
  class_if addition "diff-hunk__line--addition" +:+ " ".

(** *** The numbering model of the specification *)

Inductive RowTag := Context | Added | Removed.

(** Tagging by leading marker; any other leading character is malformed. *)
Definition tag_of_marker (m : option ascii) : option RowTag :=
  match m with
  | Some c =>
      if Ascii.eqb c " " then Some Context
      else if Ascii.eqb c "-" then Some Removed
      else if Ascii.eqb c "+" then Some Added
      else None
  | None => None
  end.

Record Numbered := { tag : RowTag; old : option Z; new : option Z }.

(** The specification's numbering: the old number advances on context and
    removed rows, the new number on context and added rows; a held number
    is not displayed. *)
Fixpoint spec_numbering (o n : Z) (tags : list RowTag) : list Numbered :=
  match tags with
  | [] => []
  | Context :: rest =>
      {| tag := Context; old := Some o; new := Some n |}
        :: spec_numbering (o + 1) (n + 1) rest
  | Removed :: rest =>
      {| tag := Removed; old := Some o; new := None |}
        :: spec_numbering (o + 1) n rest
  | Added :: rest =>
      {| tag := Added; old := None; new := Some n |}
        :: spec_numbering o (n + 1) rest
  end.

(** The class attribute the specification's tag stands for. *)
Definition tag_class (t : RowTag) : string :=
  match t with
  | Context => line_class true false false
  | Removed => line_class false true false
  | Added => line_class false false true
  end.

(** A rendered row agrees with a numbered row of the specification: same
    displayed numbers, and the class of the tag (plus the active class, if
    the row is the one the location hash names). *)
Definition agrees (r : Row) (n : Numbered) : Prop :=
  row_old r = old n ∧ row_new r = new n ∧
  ∃ active : bool,
    className r =
      tag_class (tag n) +:+ class_if active "diff-hunk__line--active".

(** *** Helpers for statements *)

Fixpoint has_newline (s : string) : bool :=
  match s with
  | EmptyString => false
  | String c rest => Ascii.eqb c newline || has_newline rest
  end.

Definition with_body (h : IFileDiffHunk) (b : string) : IFileDiffHunk :=
  {| oldRange := oldRange h; newRange := newRange h; section := section h;
     body := b |}.

(** The hunk [" 1\n-2\n+3\n+4\n"] starting at line 1 on both sides. *)
Definition example_hunk : IFileDiffHunk :=
  {| oldRange := {| startLine := 1; lines := Some 2 |};
     newRange := {| startLine := 1; lines := Some 3 |};
     section := None;
     body := String " " (String "1" (String newline
            (String "-" (String "2" (String newline
            (String "+" (String "3" (String newline
            (String "+" (String "4" (String newline
             EmptyString))))))))))) |}.

(** The hunk ["x\n+a\n"], whose first line has no marker. *)
Definition unmarked_hunk : IFileDiffHunk :=
  {| oldRange := {| startLine := 1; lines := Some 1 |};
     newRange := {| startLine := 1; lines := Some 2 |};
     section := None;
     body := String "x" (String newline
            (String "+" (String "a" (String newline EmptyString)))) |}.

(** *** Helpers for statements about whole hunks *)

(** [a.join('\n')] *)
Fixpoint join_newline (ls : list string) : string :=
  match ls with
  | [] => EmptyString
  | [l] => l
  | l :: rest => l +:+ String newline (join_newline rest)
  end.

(** The number of line feeds in a string. *)
Fixpoint count_newlines (s : string) : nat :=
  match s with
  | EmptyString => 0%nat
  | String c rest =>
      (if Ascii.eqb c newline then 1 else 0)%nat + count_newlines rest
  end.

(** The segment [slice(0, -1)] drops. *)
Definition last_segment (b : string) : string :=
  List.last (split_newline b) EmptyString.

(** [start; start + 1; ...], [n] numbers. *)
Fixpoint consecutive (start : Z) (n : nat) : list Z :=
  match n with
  | O => []
  | S k => start :: consecutive (start + 1) k
  end.

(** The [id] attributes a row puts into the document. *)
Definition cell_id (c : NumCell) : list string :=
  match c with
  | NumFilled _ _ i => [i]
  | NumEmpty => []
  end.

Definition row_ids (r : Row) : list string :=
  match nums r with
  | Some (o, n) => cell_id o ++ cell_id n
  | None => []
  end.

(** An id of the rows rendered from the counters [cnt] on: the anchor of
    an old line not before [oldLine cnt], or of a new line not before
    [newLine cnt]. *)
Definition id_from (a : string) (cnt : Counters) (i : string) : Prop :=
  (∃ k, oldLine cnt ≤ k ∧ i = a +:+ "L" +:+ show k) ∨
  (∃ k, newLine cnt ≤ k ∧ i = a +:+ "R" +:+ show k).

(** Does a class attribute end in the active class? *)
Definition has_active_class (cls : string) : bool :=
  let active := "diff-hunk__line--active" in
  String.eqb
    (substring (String.length cls - String.length active)
       (String.length active) cls)
    active.

(** [FileDiffHunks.render]: the root [<div>] with either the "No changes"
    note or the table, which has the [<colgroup>] when line numbers are on
    and one [DiffHunk] per hunk, in order. *)
Record Table := {
  colgroup : bool;
  tbody : list (Boundary * list Row)
}.

Inductive Content :=
  | NoChanges
  | Container (t : Table).

Record Rendered := {
  rootClassName : string;
  children : Content
}.

Definition render (fileDiffAnchor className hash : string)
    (hunks : list IFileDiffHunk) (lineNumbers : bool) : Rendered :=
  {| rootClassName := "file-diff-hunks " +:+ className;
     children :=
       if Nat.eqb (length hunks) 0 then NoChanges
       else Container
              {| colgroup := lineNumbers;
                 tbody :=
                   (λ hunk, DiffHunk fileDiffAnchor hunk lineNumbers hash)
                     <$> hunks |} |}.

(** The [<tr>] elements of what [render] returns: per hunk the boundary
    row and the line rows. *)
Definition table_rows (r : Rendered) : nat :=
  match children r with
  | NoChanges => 0%nat
  | Container t => sum_list ((λ h, S (length h.2)) <$> tbody t)
  end.

(** The ids of the line-number cells of what [render] returns, in document
    order. *)
Definition table_ids (r : Rendered) : list string :=
  match children r with
  | NoChanges => []
  | Container t => mjoin ((λ h, mjoin (row_ids <$> h.2)) <$> tbody t)
  end.

(** The lines of a hunk that count on the old side (with ["+"]) or on the
    new side (with ["-"]): those that do not start with that character. *)
Definition counted_lines (c : ascii) (h : IFileDiffHunk) : Z :=
  Z.of_nat (length (List.filter (λ l, char0_isnt l c) (body_lines (body h)))).

(** [h] ends before [h'] starts, on both sides; the hunks of a list follow
    one another in this way, as the hunks of a unified diff do. *)
Definition ends_before (h h' : IFileDiffHunk) : bool :=
  (startLine (oldRange h) + counted_lines "+" h <=? startLine (oldRange h')) &&
  (startLine (newRange h) + counted_lines "-" h <=? startLine (newRange h')).

Fixpoint hunks_apart (hs : list IFileDiffHunk) : bool :=
  match hs with
  | [] => true
  | h :: rest => forallb (ends_before h) rest && hunks_apart rest
  end.

End Hunk.

(** ** The tooltip pipelines *)

Module Tooltips.

(** *** Data *)

(** DOM elements, observables and subscriptions are known by identity. *)
Definition Elem := nat.
Definition ObsId := nat.
Definition SubId := nat.

(** [loc.part]: ['old'], ['new'] or [undefined]. *)
Inductive Part := PartOld | PartNew.

(** What [getTargetLineAndOffset] returns for a target inside the table. *)
Record Position := { line : Z; character : Z; part : option Part }.

(** [DiffFile] *)
Record DiffFile := {
  repoPath : string;
  repoID : string;
  rev : string;
  commitID : string;
  filePath : option string;
  mode : option string
}.

(** [Props], with the fields the pipelines read. *)
Record Props := { base : DiffFile; head : DiffFile }.

(** [LSPTextDocumentPositionParams] as the gesture pipeline builds it: the
    fields of one side's [DiffFile], the position, and the mode. *)
Record Ctx := {
  ctx_file : DiffFile;
  position : Position;
  ctx_mode : option string
}.

(** An error of a lookup; the pipelines only ask whether its code is
    [EMODENOTFOUND]. *)
Inductive ErrCode := EMODENOTFOUND | OtherCode (n : Z).
Record Err := { code : ErrCode; message : string }.

Definition is_EMODENOTFOUND (e : Err) : bool :=
  match code e with EMODENOTFOUND => true | OtherCode _ => false end.

(** What [getHover] emits. *)
Record Hover := { hover_contents : option (list string) }.

(** What the definition lookup leaves in [defUrlOrError]. *)
Inductive UrlOrError := Url (u : string) | Error (e : Err).

(** [TooltipData]; an absent optional field is [None] ([false] for
    [loading]). *)
Record TooltipData := {
  target : Elem;
  ctx : Ctx;
  contents : option (list string);
  loading : bool;
  defUrlOrError : option UrlOrError
}.

Inductive EventType := mouseover | click.

(** The target of a mouse event on the table, with what the helpers of
    [../blob/tooltips] and the DOM report about it: [getTableDataCell],
    [getTargetLineAndOffset], [classList.contains('diff-hunk__num')] and
    [id]. *)
Record Target := {
  elem : Elem;
  td : option Elem;
  loc : option Position;
  isDiffHunkNum : bool;
  id : string
}.

(** The modifier keys of the mouse event handed to a tooltip action. *)
Record MouseEvent := {
  shiftKey : bool;
  ctrlKey : bool;
  altKey : bool;
  metaKey : bool
}.

(** [AbsoluteRepoFilePosition] *)
Record AbsoluteRepoFilePosition := {
  arp_repoPath : string;
  arp_commitID : string;
  arp_filePath : string;
  arp_line : Z;
  arp_character : Z
}.

(** The argument of [history.push]. *)
Inductive Destination :=
  | Hash (h : string)
  | AbsoluteBlobURL (c : AbsoluteRepoFilePosition)
  | PrettyBlobURL (c : AbsoluteRepoFilePosition) (viewState : string).

(** Calls to collaborators, recorded in the order they are made. *)
Inductive Effect :=
  | E_createTooltips
  | E_convertNode (td : Elem)
  | E_getHover (o : ObsId) (c : Ctx)
  | E_getJumpURL (o : ObsId) (c : Ctx)
  | E_subscribe (o : ObsId) (s : SubId)
  | E_logTelemetryOnTooltip (data : TooltipData) (click : bool)
  | E_updateTooltip (data : TooltipData) (docked : bool)
  | E_hideTooltip
  | E_eventLogger_log (name : string) (hoverHasDefUrl : option bool)
  | E_console_error (e : Err)
  | E_preventDefault
  | E_history_push (d : Destination).

(** *** State *)

(** The document: which elements carry which class, which have the pointer
    cursor, and the tooltip on display. *)
Record Dom := {
  selection_highlight : gset Elem;
  selection_highlight_sticky : gset Elem;
  cursor_pointer : gset Elem;
  annotated : gset Elem;
  shown : option (TooltipData * bool)
}.

(** The inner observable of the gesture [switchMap]:
    [merge(loading, tooltip)], where [loading] is the 500 ms interval taken
    until [tooltip] emits.  [tooltip] is subscribed twice: by [takeUntil] as
    its notifier and by [merge].  A field is [None] or [false] once that
    part has completed or was unsubscribed. *)
Record GestureChain := {
  g_type : EventType;
  g_target : Elem;
  g_ctx : Ctx;
  g_notifier : option SubId;
  g_interval : bool;
  g_tooltip : option SubId
}.

(** The inner observable of the docking [switchMap]: the hover lookup zipped
    with the definition lookup.  Each side is a live subscription, or a value
    that waits in the zip buffer for the other side. *)
Record FixedChain := {
  f_target : Elem;
  f_ctx : Ctx;
  f_hover : option SubId;
  f_hoverValue : option TooltipData;
  f_jump : option SubId;
  f_jumpValue : option (option UrlOrError)
}.

(** The component, the document and the pipes set up by [setElement].
    [this.setState] takes effect at once: the callbacks run from DOM
    listeners and subscriptions, outside React's own event handlers.  The
    answer of a lookup arrives as an event of its own, after the
    subscription was made; every subscription gets its own answer. *)
Record World := {
  props : Props;
  (** [this.state.fixedTooltip] *)
  state_fixedTooltip : option TooltipData;
  dom : Dom;
  trace : list Effect;
  (** the next unused observable or subscription identity *)
  fresh : nat;
  (** [this.refSubscriptions] is set and open *)
  refSubscriptions : bool;
  (** the listeners added to [this.subscriptions] are subscribed *)
  subscriptions : bool;
  (** the event [debounceTime(50)] holds back *)
  debounce : option (EventType * Target);
  gestureInner : option GestureChain;
  fixedInner : option FixedChain
}.

(** *** The monad of the callbacks *)

Definition M (A : Type) : Type := World → A * World.

#[global] Instance M_ret : MRet M := λ A x w, (x, w).
#[global] Instance M_bind : MBind M :=
  λ A B k m w, let '(x, w') := m w in k x w'.

Definition gets {A} (f : World → A) : M A := λ w, (f w, w).
Definition skip : M unit := mret tt.
Definition when (b : bool) (m : M unit) : M unit := if b then m else skip.

(** Updates of one part of the world.  They take the record apart, so that
    a sequence of updates on a given world computes in one pass. *)
Definition set_state (d : option TooltipData) : M unit :=
  λ '(Build_World p _ dm tr fr rs ss db g f),
    (tt, Build_World p d dm tr fr rs ss db g f).

Definition set_dom (h : Dom → Dom) : M unit :=
  λ '(Build_World p st dm tr fr rs ss db g f),
    (tt, Build_World p st (h dm) tr fr rs ss db g f).

Definition emit (e : Effect) : M unit :=
  λ '(Build_World p st dm tr fr rs ss db g f),
    (tt, Build_World p st dm (tr ++ [e]) fr rs ss db g f).

Definition new_id : M nat :=
  λ '(Build_World p st dm tr fr rs ss db g f),
    (fr, Build_World p st dm tr (S fr) rs ss db g f).

Definition set_open (r s : bool) : M unit :=
  λ '(Build_World p st dm tr fr _ _ db g f),
    (tt, Build_World p st dm tr fr r s db g f).

Definition set_debounce (d : option (EventType * Target)) : M unit :=
  λ '(Build_World p st dm tr fr rs ss _ g f),
    (tt, Build_World p st dm tr fr rs ss d g f).

Definition set_gestureInner (g : option GestureChain) : M unit :=
  λ '(Build_World p st dm tr fr rs ss db _ f),
    (tt, Build_World p st dm tr fr rs ss db g f).

Definition set_fixedInner (f : option FixedChain) : M unit :=
  λ '(Build_World p st dm tr fr rs ss db g _),
    (tt, Build_World p st dm tr fr rs ss db g f).

(** *** The document and the collaborators *)

(** [for (const el of document.querySelectorAll('.selection-highlight'))
    el.classList.remove('selection-highlight')].  The elements the model
    follows are targets of events on the table; the same clearing stands for
    [ref.querySelectorAll] in the [mouseout] listener. *)
Definition remove_selection_highlight : M unit :=
  set_dom (λ '(Build_Dom _ sticky cur ann sh), Build_Dom ∅ sticky cur ann sh).

Definition remove_selection_highlight_sticky : M unit :=
  set_dom (λ '(Build_Dom hl _ cur ann sh), Build_Dom hl ∅ cur ann sh).

(** [el.classList.add('selection-highlight')] *)
Definition add_selection_highlight (el : Elem) : M unit :=
  set_dom (λ '(Build_Dom hl sticky cur ann sh),
    Build_Dom ({[el]} ∪ hl) sticky cur ann sh).

(** [el.classList.add('selection-highlight-sticky')] *)
Definition add_selection_highlight_sticky (el : Elem) : M unit :=
  set_dom (λ '(Build_Dom hl sticky cur ann sh),
    Build_Dom hl ({[el]} ∪ sticky) cur ann sh).

(** [el.style.cursor = 'pointer'] *)
Definition set_cursor_pointer (el : Elem) : M unit :=
  set_dom (λ '(Build_Dom hl sticky cur ann sh),
    Build_Dom hl sticky ({[el]} ∪ cur) ann sh).

(** [td.classList.add('annotated')] *)
Definition add_annotated (el : Elem) : M unit :=
  set_dom (λ '(Build_Dom hl sticky cur ann sh),
    Build_Dom hl sticky cur ({[el]} ∪ ann) sh).

Definition set_shown (t : option (TooltipData * bool)) : M unit :=
  set_dom (λ '(Build_Dom hl sticky cur ann _), Build_Dom hl sticky cur ann t).

(** Modelled from the spec: [updateTooltip] and [hideTooltip] of
    [../blob/tooltips] are not among the sources.  The view has one tooltip
    (at most one tooltip is active at any time): [updateTooltip] puts its
    data on display, docked or not, and [hideTooltip] takes the tooltip
    down.  Each call is recorded in the trace as well. *)
Definition updateTooltip (data : TooltipData) (docked : bool) : M unit :=
  emit (E_updateTooltip data docked);;
  set_shown (Some (data, docked)).

Definition hideTooltip : M unit :=
  emit E_hideTooltip;;
  set_shown None.

(** Modelled from the spec: [isEmptyHover] of [../../backend/lsp] is not
    among the sources.  A lookup result is empty when it has no content. *)
Definition isEmptyHover (contents : option (list string)) : bool :=
  match contents with
  | None => true
  | Some [] => true
  | Some (_ :: _) => false
  end.

(** [!contents || isEmptyHover({ contents })] *)
Definition no_contents (contents : option (list string)) : bool :=
  match contents with
  | None => true
  | Some _ => isEmptyHover contents
  end.

(** [defResponse || undefined]: [null] and the empty string become
    [undefined]. *)
Definition or_undefined (r : option UrlOrError) : option UrlOrError :=
  match r with
  | Some (Url u) => if String.eqb u EmptyString then None else Some (Url u)
  | Some (Error e) => Some (Error e)
  | None => None
  end.

(** [{ target, ctx }] *)
Definition bare (t : Elem) (c : Ctx) : TooltipData :=
  {| target := t; ctx := c; contents := None; loading := false;
     defUrlOrError := None |}.

(** [{ target, ctx, loading: true }] *)
Definition loading_data (t : Elem) (c : Ctx) : TooltipData :=
  {| target := t; ctx := c; contents := None; loading := true;
     defUrlOrError := None |}.

(** [{ ...tooltip, defUrlOrError: defResponse || undefined }] *)
Definition with_definition (tooltip : TooltipData) (r : option UrlOrError)
    : TooltipData :=
  {| target := target tooltip; ctx := ctx tooltip;
     contents := contents tooltip; loading := loading tooltip;
     defUrlOrError := or_undefined r |}.

(** The observable returned by a lookup function, and a subscription to an
    observable: both get a new identity, and the call is recorded. *)
Definition call_getHover (c : Ctx) : M ObsId :=
  o ← new_id; emit (E_getHover o c);; mret o.

Definition call_getJumpURL (c : Ctx) : M ObsId :=
  o ← new_id; emit (E_getJumpURL o c);; mret o.

Definition subscribe (o : ObsId) : M SubId :=
  s ← new_id; emit (E_subscribe o s);; mret s.

(** *** The component *)

(** [setFixedTooltip] *)
Definition setFixedTooltip (data : option TooltipData) : M unit :=
  remove_selection_highlight;;
  remove_selection_highlight_sticky;;
  match data with
  | Some d =>
      match defUrlOrError d with
      | None => emit (E_eventLogger_log "TooltipDocked" (Some false))
      | Some _ =>
          emit (E_eventLogger_log "TooltipDockedWithDefinition" (Some true))
      end;;
      add_selection_highlight_sticky (target d)
  | None => hideTooltip
  end;;
  set_state data.

(** [getTooltip]: the call, which returns the observable, ... *)
Definition getTooltip (c : Ctx) : M ObsId := call_getHover c.

(** ... and what its [tap] and [map] do to a value of [getHover], once per
    subscription. *)
Definition getTooltip_next (t : Elem) (c : Ctx) (data : Hover)
    : M TooltipData :=
  when (negb (isEmptyHover (hover_contents data)))
    (set_cursor_pointer t;; add_selection_highlight t);;
  mret {| target := t; ctx := c; contents := hover_contents data;
          loading := false; defUrlOrError := None |}.

(** [getDefinition] *)
Definition getDefinition (c : Ctx) : M ObsId := call_getJumpURL c.

(** [handleDismiss] *)
Definition handleDismiss : M unit := setFixedTooltip None.

Definition any_modifier (e : MouseEvent) : bool :=
  shiftKey e || ctrlKey e || altKey e || metaKey e.

(** [handleGoToDefinition] *)
Definition handleGoToDefinition (defCtx : AbsoluteRepoFilePosition)
    (e : MouseEvent) : M unit :=
  emit (E_eventLogger_log "GoToDefClicked" None);;
  if any_modifier e then skip
  else
    emit E_preventDefault;;
    hideTooltip;;
    setFixedTooltip None;;
    emit (E_history_push (AbsoluteBlobURL defCtx)).

(** [handleFindReferences] *)
Definition handleFindReferences (c : AbsoluteRepoFilePosition)
    (e : MouseEvent) : M unit :=
  emit (E_eventLogger_log "FindRefsClicked" None);;
  if any_modifier e then skip
  else
    emit E_preventDefault;;
    emit (E_history_push (PrettyBlobURL c "references")).

(** The tap of the docking chain and the subscriber of the docking pipeline
    have the same body: without contents the docked tooltip is cleared,
    otherwise the data is docked and displayed. *)
Definition dock_or_clear (data : TooltipData) : M unit :=
  if no_contents (contents data) then setFixedTooltip None
  else
    setFixedTooltip (Some data);;
    updateTooltip data true.

Definition fixed_tap (tooltip : TooltipData) : M unit := dock_or_clear tooltip.

Definition fixed_subscriber (data : option TooltipData) : M unit :=
  match data with
  | None => setFixedTooltip None
  | Some d => dock_or_clear d
  end.

(** The docking [switchMap]: the previous inner chain is dropped; [null]
    passes through at once, a tooltip starts the hover lookup zipped with
    the definition lookup. *)
Definition fixed_switchMap (data : option TooltipData) : M unit :=
  match data with
  | None =>
      set_fixedInner None;;
      fixed_subscriber None
  | Some d =>
      hoverObs ← getTooltip (ctx d);
      jumpObs ← getDefinition (ctx d);
      h ← subscribe hoverObs;
      j ← subscribe jumpObs;
      set_fixedInner
        (Some {| f_target := target d; f_ctx := ctx d;
                 f_hover := Some h; f_hoverValue := None;
                 f_jump := Some j; f_jumpValue := None |})
  end.

(** [this.fixedTooltip.next(data)] *)
Definition fixedTooltip_next (data : TooltipData) : M unit :=
  listening ← gets subscriptions;
  when listening (fixed_switchMap (Some data)).

(** The subscriber of the gesture pipeline. *)
Definition gesture_subscriber (type : EventType) (data : TooltipData)
    : M unit :=
  let isClick := match type with click => true | mouseover => false end in
  emit (E_logTelemetryOnTooltip data isClick);;
  if isClick then fixedTooltip_next data
  else
    fixed ← gets state_fixedTooltip;
    match fixed with
    | None => updateTooltip data false
    | Some _ => skip
    end.

(** *** The gesture pipeline *)

(** The context of a gesture: the side of the diff named by [loc.part], the
    position, and the mode of whichever side has a file. *)
Definition gesture_ctx (p : Props) (l : Position) : Ctx :=
  {| ctx_file :=
       match part l with
       | Some PartOld => base p
       | _ => head p
       end;
     position := l;
     ctx_mode :=
       match filePath (base p) with
       | None => mode (head p)
       | Some _ => mode (base p)
       end |}.

(** [filter(data => !!data.loc && Boolean(data.loc.part))] *)
Definition has_part (l : option Position) : option Position :=
  match l with
  | Some p => match part p with Some _ => Some p | None => None end
  | None => None
  end.

(** The gesture [switchMap]: both lookups are called, the definition lookup
    without being subscribed; the previous inner chain is dropped and
    [merge(loading, tooltip)] subscribed, which subscribes [tooltip] as the
    notifier of [takeUntil], starts the interval, and subscribes [tooltip]
    again. *)
Definition gesture_switchMap (type : EventType) (t : Elem) (c : Ctx)
    : M unit :=
  tooltip ← getTooltip c;
  _ ← getDefinition c;
  notifier ← subscribe tooltip;
  merged ← subscribe tooltip;
  set_gestureInner
    (Some {| g_type := type; g_target := t; g_ctx := c;
             g_notifier := Some notifier; g_interval := true;
             g_tooltip := Some merged |}).

(** The [tap] of the gesture pipeline: the tooltips are created and the
    cell of the target is annotated, once. *)
Definition gesture_tap (tgt : Target) : M unit :=
  emit E_createTooltips;;
  match td tgt with
  | Some cell =>
      known ← gets (λ w, bool_decide (cell ∈ annotated (dom w)));
      when (negb known) (add_annotated cell;; emit (E_convertNode cell))
  | None => skip
  end.

(** What [debounceTime(50)] lets through, down to the [switchMap]. *)
Definition gesture_event (type : EventType) (tgt : Target) : M unit :=
  gesture_tap tgt;;
  match has_part (loc tgt) with
  | Some l =>
      p ← gets props;
      gesture_switchMap type (elem tgt) (gesture_ctx p l)
  | None => skip
  end.

(** [takeUntil(tooltip)]: the notifier emitted; the interval is dropped and
    [loading] completes without a value. *)
Definition gesture_notifier_next (g : GestureChain) (data : Hover)
    : M unit :=
  _ ← getTooltip_next (g_target g) (g_ctx g) data;
  set_gestureInner
    (Some {| g_type := g_type g; g_target := g_target g; g_ctx := g_ctx g;
             g_notifier := None; g_interval := false;
             g_tooltip := g_tooltip g |}).

(** [merge(loading, tooltip)]: [tooltip] emitted its value. *)
Definition gesture_tooltip_next (g : GestureChain) (data : Hover)
    : M unit :=
  tooltip ← getTooltip_next (g_target g) (g_ctx g) data;
  gesture_subscriber (g_type g) tooltip;;
  set_gestureInner
    (Some {| g_type := g_type g; g_target := g_target g; g_ctx := g_ctx g;
             g_notifier := g_notifier g; g_interval := g_interval g;
             g_tooltip := None |}).

(** [getLoadingTooltip]: [interval(500)] ticked; [take(1)] completes
    [loading], which lets go of the notifier. *)
Definition gesture_interval_tick (g : GestureChain) : M unit :=
  gesture_subscriber (g_type g) (loading_data (g_target g) (g_ctx g));;
  set_gestureInner
    (Some {| g_type := g_type g; g_target := g_target g; g_ctx := g_ctx g;
             g_notifier := None; g_interval := false;
             g_tooltip := g_tooltip g |}).

(** [catchError]: an error of either subscription ends the chain and is
    replaced by the bare data. *)
Definition gesture_error (g : GestureChain) (err : Err) : M unit :=
  when (negb (is_EMODENOTFOUND err)) (emit (E_console_error err));;
  set_gestureInner None;;
  gesture_subscriber (g_type g) (bare (g_target g) (g_ctx g)).

(** *** The docking pipeline *)

(** The hover lookup of the docking chain emitted: the tap docks or clears,
    then [zip] pairs the value with the definition, if that is there. *)
Definition fixed_hover_next (f : FixedChain) (data : Hover) : M unit :=
  tooltip ← getTooltip_next (f_target f) (f_ctx f) data;
  fixed_tap tooltip;;
  match f_jumpValue f with
  | Some r =>
      fixed_subscriber (Some (with_definition tooltip r));;
      set_fixedInner None
  | None =>
      set_fixedInner
        (Some {| f_target := f_target f; f_ctx := f_ctx f;
                 f_hover := None; f_hoverValue := Some tooltip;
                 f_jump := f_jump f; f_jumpValue := f_jumpValue f |})
  end.

(** The definition lookup of the docking chain emitted, or failed and was
    replaced by its error. *)
Definition fixed_jump_next (f : FixedChain) (r : option UrlOrError)
    : M unit :=
  match f_hoverValue f with
  | Some tooltip =>
      fixed_subscriber (Some (with_definition tooltip r));;
      set_fixedInner None
  | None =>
      set_fixedInner
        (Some {| f_target := f_target f; f_ctx := f_ctx f;
                 f_hover := f_hover f; f_hoverValue := f_hoverValue f;
                 f_jump := None; f_jumpValue := Some r |})
  end.

(** [catchError] of the docking chain. *)
Definition fixed_error (f : FixedChain) (err : Err) : M unit :=
  when (negb (is_EMODENOTFOUND err)) (emit (E_console_error err));;
  set_fixedInner None;;
  fixed_subscriber (Some (bare (f_target f) (f_ctx f))).

(** *** Events *)

Inductive Event :=
  (** [mouseover] or [click] on the table *)
  | Mouse (type : EventType) (tgt : Target)
  (** 50 ms went by without a mouse event *)
  | DebounceElapsed
  (** the 500 ms interval of the gesture chain is due *)
  | LoadingElapsed
  (** a subscription to [getHover] gets its value, or fails *)
  | HoverNext (s : SubId) (data : Hover)
  | HoverError (s : SubId) (err : Err)
  (** a subscription to [getJumpURL] gets its value, or fails *)
  | JumpNext (s : SubId) (url : option string)
  | JumpError (s : SubId) (err : Err)
  | MouseOut
  | KeyDown (key : string)
  (** the actions handed to [updateTooltip] *)
  | ActionDefinition (defCtx : AbsoluteRepoFilePosition) (e : MouseEvent)
  | ActionReferences (c : AbsoluteRepoFilePosition) (e : MouseEvent)
  | ActionDismiss
  (** [setElement(null)] and [componentWillUnmount] *)
  | SetElementNull
  | Unmount.

(** Is [s] the live subscription [o]? *)
Definition is_sub (o : option SubId) (s : SubId) : bool :=
  bool_decide (o = Some s).

(** Which part of which chain a subscription belongs to. *)
Inductive Owner :=
  | GestureNotifier (g : GestureChain)
  | GestureTooltip (g : GestureChain)
  | FixedHover (f : FixedChain)
  | FixedJump (f : FixedChain)
  | NoOwner.

Definition hover_owner (w : World) (s : SubId) : Owner :=
  match gestureInner w, fixedInner w with
  | Some g, fx =>
      if is_sub (g_notifier g) s then GestureNotifier g
      else if is_sub (g_tooltip g) s then GestureTooltip g
      else match fx with
           | Some f => if is_sub (f_hover f) s then FixedHover f else NoOwner
           | None => NoOwner
           end
  | None, Some f => if is_sub (f_hover f) s then FixedHover f else NoOwner
  | None, None => NoOwner
  end.

Definition jump_owner (w : World) (s : SubId) : Owner :=
  match fixedInner w with
  | Some f => if is_sub (f_jump f) s then FixedJump f else NoOwner
  | None => NoOwner
  end.

Definition on_mouse (type : EventType) (tgt : Target) : M unit :=
  r ← gets refSubscriptions;
  when r (set_debounce (Some (type, tgt)));;
  listening ← gets subscriptions;
  when (listening &&
        match type with click => true | mouseover => false end &&
        isDiffHunkNum tgt && negb (String.eqb (id tgt) EmptyString))
    (emit (E_history_push (Hash (id tgt)))).

Definition on_debounce : M unit :=
  d ← gets debounce;
  match d with
  | Some (type, tgt) => set_debounce None;; gesture_event type tgt
  | None => skip
  end.

Definition on_loading : M unit :=
  g ← gets gestureInner;
  match g with
  | Some c => when (g_interval c) (gesture_interval_tick c)
  | None => skip
  end.

Definition on_mouseout : M unit :=
  listening ← gets subscriptions;
  when listening
    (remove_selection_highlight;;
     fixed ← gets state_fixedTooltip;
     match fixed with
     | None => hideTooltip
     | Some _ => skip
     end).

Definition on_keydown (key : string) : M unit :=
  listening ← gets subscriptions;
  when (listening && String.eqb key "Escape")
    (emit E_preventDefault;; handleDismiss).

(** [setElement(null)]: the gesture pipeline is unsubscribed; what was added
    to [this.subscriptions] stays. *)
Definition setElement_null : M unit :=
  set_debounce None;;
  set_gestureInner None;;
  listening ← gets subscriptions;
  set_open false listening.

(** [componentWillUnmount]: everything is unsubscribed. *)
Definition componentWillUnmount : M unit :=
  set_debounce None;;
  set_gestureInner None;;
  set_fixedInner None;;
  set_open false false.

Definition on_event (e : Event) : M unit :=
  match e with
  | Mouse type tgt => on_mouse type tgt
  | DebounceElapsed => on_debounce
  | LoadingElapsed => on_loading
  | HoverNext s data =>
      o ← gets (λ w, hover_owner w s);
      match o with
      | GestureNotifier g => gesture_notifier_next g data
      | GestureTooltip g => gesture_tooltip_next g data
      | FixedHover f => fixed_hover_next f data
      | _ => skip
      end
  | HoverError s err =>
      o ← gets (λ w, hover_owner w s);
      match o with
      | GestureNotifier g | GestureTooltip g => gesture_error g err
      | FixedHover f => fixed_error f err
      | _ => skip
      end
  | JumpNext s url =>
      o ← gets (λ w, jump_owner w s);
      match o with
      | FixedJump f =>
          fixed_jump_next f
            (match url with Some u => Some (Url u) | None => None end)
      | _ => skip
      end
  | JumpError s err =>
      o ← gets (λ w, jump_owner w s);
      match o with
      | FixedJump f => fixed_jump_next f (Some (Error err))
      | _ => skip
      end
  | MouseOut => on_mouseout
  | KeyDown key => on_keydown key
  | ActionDefinition defCtx e => handleGoToDefinition defCtx e
  | ActionReferences c e => handleFindReferences c e
  | ActionDismiss => handleDismiss
  | SetElementNull => setElement_null
  | Unmount => componentWillUnmount
  end.

Definition step (w : World) (e : Event) : World := snd (on_event e w).

Definition run (w : World) (es : list Event) : World := fold_left step es w.

(** The component after its constructor, in a document [d]. *)
Definition constructed (p : Props) (d : Dom) : World :=
  {| props := p; state_fixedTooltip := None; dom := d; trace := [];
     fresh := 0%nat; refSubscriptions := false; subscriptions := false;
     debounce := None; gestureInner := None; fixedInner := None |}.

(** [setElement(ref)] for the table element: the pipelines and listeners
    are subscribed, and the docking pipeline starts with
    [this.state.fixedTooltip || null]. *)
Definition setElement : M unit :=
  set_open true true;;
  fixed ← gets state_fixedTooltip;
  fixed_switchMap fixed.

Definition mounted (p : Props) (d : Dom) : World :=
  snd (setElement (constructed p d)).

(** The states the component goes through after mounting. *)
Definition reachable (w : World) : Prop :=
  ∃ p d es, w = run (mounted p d) es.

(** *** Reading a state *)

(** The tooltip states of the specification. *)
Inductive TooltipState :=
  | Loading (d : TooltipData)
  | Transient (d : TooltipData)
  | Docked (d : TooltipData).

(** The tooltips that are active: the docked one, and the one on display
    if it is not the docked one. *)
Definition active_tooltips (w : World) : list TooltipState :=
  match state_fixedTooltip w with
  | Some d => [Docked d]
  | None => []
  end ++
  match shown (dom w) with
  | Some (d, false) => [if loading d then Loading d else Transient d]
  | _ => []
  end.

(** No tooltip, no docked tooltip, no highlight of either kind. *)
Definition idle (w : World) : Prop :=
  state_fixedTooltip w = None ∧ shown (dom w) = None ∧
  selection_highlight (dom w) = ∅ ∧
  selection_highlight_sticky (dom w) = ∅.

(** The subscriptions of the two chains that are live. *)
Definition gesture_live (w : World) (s : SubId) : bool :=
  match gestureInner w with
  | Some g => is_sub (g_notifier g) s || is_sub (g_tooltip g) s
  | None => false
  end.

Definition fixed_live (w : World) (s : SubId) : bool :=
  match fixedInner w with
  | Some f => is_sub (f_hover f) s || is_sub (f_jump f) s
  | None => false
  end.



(** The interval runs exactly while its notifier is subscribed. *)
Definition timer_ok (w : World) : Prop :=
  match gestureInner w with
  | Some g =>
      g_interval g = match g_notifier g with Some _ => true | None => false end
  | None => True
  end.

(** The pipelines are in order: live subscriptions have identities below
    [fresh], no subscription belongs to both chains, and the interval is
    tied to its notifier. *)
Definition pipes_ok (w : World) : Prop :=
  (∀ s, gesture_live w s = true → s < fresh w) ∧
  (∀ s, fixed_live w s = true → s < fresh w) ∧
  (∀ s, gesture_live w s = true → fixed_live w s = false) ∧
  timer_ok w.

(** How the pipes of [w'] come from those of [w]: identities are taken from
    [fresh] on, a live subscription was live before or is new, and the
    pipes stay in order. *)
Record evolves (w w' : World) : Prop := {
  ev_fresh : fresh w ≤ fresh w';
  ev_gesture s : gesture_live w' s = true →
    gesture_live w s = true ∨ fresh w ≤ s < fresh w';
  ev_fixed s : fixed_live w' s = true →
    fixed_live w s = true ∨ fresh w ≤ s < fresh w';
  ev_ok : pipes_ok w → pipes_ok w'
}.

(** An action whose every run evolves the pipes. *)
Definition evolving {A} (m : M A) : Prop := ∀ w, evolves w (m w).2.

(** The docked tooltip, the sticky class and the display go together. *)
Definition docked_ok (w : World) : Prop :=
  selection_highlight_sticky (dom w) =
    match state_fixedTooltip w with Some d => {[target d]} | None => ∅ end ∧
  match state_fixedTooltip w with
  | Some d => shown (dom w) = Some (d, true)
  | None => ∀ d, shown (dom w) ≠ Some (d, true)
  end.

(** Two worlds with the same docked tooltip, sticky class and display; two
    worlds with the same pipes. *)
Definition same_docking (w w' : World) : Prop :=
  state_fixedTooltip w' = state_fixedTooltip w ∧
  selection_highlight_sticky (dom w') = selection_highlight_sticky (dom w) ∧
  shown (dom w') = shown (dom w).

Definition same_pipes (w w' : World) : Prop :=
  fresh w' = fresh w ∧ gestureInner w' = gestureInner w ∧
  fixedInner w' = fixedInner w.

(** An action that keeps a property of the world. *)
Definition preserves {A} (I : World → Prop) (m : M A) : Prop :=
  ∀ w, I w → I (m w).2.

(** Reading the trace: the ["TooltipDocked"] events without definition, the
    observables [getJumpURL] returned, and the subscriptions to an
    observable. *)
Definition is_TooltipDocked (e : Effect) : bool :=
  match e with
  | E_eventLogger_log name (Some false) => String.eqb name "TooltipDocked"
  | _ => false
  end.

Definition count_TooltipDocked (tr : list Effect) : nat :=
  length (List.filter is_TooltipDocked tr).

Definition jump_observables (tr : list Effect) : list ObsId :=
  omap (λ e, match e with E_getJumpURL o _ => Some o | _ => None end) tr.

Definition subscribers (o : ObsId) (tr : list Effect) : list SubId :=
  omap (λ e, match e with
             | E_subscribe o' s => if Nat.eqb o' o then Some s else None
             | _ => None
             end) tr.

(** The observable [o] exists and nothing subscribed to it. *)
Definition unsubscribed (o : ObsId) (w : World) : Prop :=
  o < fresh w ∧ subscribers o (trace w) = [].

(** Nothing is subscribed to an observable that does not exist yet. *)
Definition trace_fresh (w : World) : Prop :=
  ∀ o, fresh w ≤ o → subscribers o (trace w) = [].

(** An effect other than a subscription. *)
Definition not_subscribe (e : Effect) : Prop :=
  match e with E_subscribe _ _ => False | _ => True end.

(** *** Reading a run *)

(** The events that call one of the actions handed to [updateTooltip]; the
    other events come from the document, the timers and the lookups. *)
Definition is_action (e : Event) : bool :=
  match e with
  | ActionDefinition _ _ | ActionReferences _ _ | ActionDismiss => true
  | _ => false
  end.

(** The positions [getHover] and [getJumpURL] were called with, and the
    cells handed to [convertNode], in the order of the calls. *)
Definition hover_lookups (tr : list Effect) : list Ctx :=
  omap (λ e, match e with E_getHover _ c => Some c | _ => None end) tr.

Definition jump_lookups (tr : list Effect) : list Ctx :=
  omap (λ e, match e with E_getJumpURL _ c => Some c | _ => None end) tr.

Definition converted (tr : list Effect) : list Elem :=
  omap (λ e, match e with E_convertNode cell => Some cell | _ => None end) tr.

(** An effect other than a lookup call; other than [convertNode]. *)
Definition not_lookup (e : Effect) : Prop :=
  match e with E_getHover _ _ | E_getJumpURL _ _ => False | _ => True end.

Definition not_convertNode (e : Effect) : Prop :=
  match e with E_convertNode _ => False | _ => True end.

(** The gesture pipeline is unsubscribed, as [setElement(null)] leaves it;
    everything is unsubscribed, as [componentWillUnmount] leaves it. *)
Definition gesture_off (w : World) : Prop :=
  refSubscriptions w = false ∧ debounce w = None ∧ gestureInner w = None.

Definition released (w : World) : Prop :=
  gesture_off w ∧ subscriptions w = false ∧ fixedInner w = None.

Definition is_click (type : EventType) : bool :=
  match type with click => true | mouseover => false end.

(** The mouse events the line-number listener lets through its filter. *)
Definition pushes_hash (type : EventType) (tgt : Target) : bool :=
  is_click type && isDiffHunkNum tgt && negb (String.eqb (id tgt) EmptyString).




(** Every call of the hover lookup comes with a call of the definition
    lookup for the same position. *)
Definition lookups_paired (w : World) : Prop :=
  hover_lookups (trace w) = jump_lookups (trace w).

(** No cell was handed to [convertNode] twice, and every cell that was
    carries the class [annotated]. *)
Definition converted_ok (w : World) : Prop :=
  NoDup (converted (trace w)) ∧
  ∀ cell, cell ∈ converted (trace w) → cell ∈ annotated (dom w).

(** The hashes pushed onto the history, in order, and the clicks of a run
    that the line-number listener lets through. *)
Definition hashes (tr : list Effect) : list string :=
  omap (λ e, match e with E_history_push (Hash h) => Some h | _ => None end)
    tr.

Definition gutter_clicks (es : list Event) : list string :=
  omap (λ e, match e with
             | Mouse type tgt =>
                 if pushes_hash type tgt then Some (id tgt) else None
             | _ => None
             end) es.

Definition not_hash_push (e : Effect) : Prop :=
  match e with E_history_push (Hash _) => False | _ => True end.

(** The listeners of [this.subscriptions] are subscribed and the pushed
    hashes are [hs]. *)
Definition pushed (hs : list string) (w : World) : Prop :=
  subscriptions w = true ∧ hashes (trace w) = hs.

Definition is_unmount (e : Event) : bool :=
  match e with Unmount => true | _ => false end.

(** *** Example data *)

Module Example.

Definition base_file : DiffFile :=
  {| repoPath := "github.com/gorilla/mux"; repoID := "1"; rev := "v1";
     commitID := "c0ffee"; filePath := Some "mux.go"; mode := Some "go" |}.

Definition head_file : DiffFile :=
  {| repoPath := "github.com/gorilla/mux"; repoID := "1"; rev := "v2";
     commitID := "decade"; filePath := Some "mux.go"; mode := Some "go" |}.

Definition the_props : Props := {| base := base_file; head := head_file |}.

Definition empty_dom : Dom :=
  {| selection_highlight := ∅; selection_highlight_sticky := ∅;
     cursor_pointer := ∅; annotated := ∅; shown := None |}.

Definition start : World := mounted the_props empty_dom.

(** Two tokens: A on the new side, B on the old side. *)
Definition posA : Position := {| line := 3%Z; character := 4%Z; part := Some PartNew |}.
Definition posB : Position := {| line := 7%Z; character := 1%Z; part := Some PartOld |}.

Definition tgtA : Target :=
  {| elem := 10%nat; td := Some 1%nat; loc := Some posA;
     isDiffHunkNum := false; id := EmptyString |}.
Definition tgtB : Target :=
  {| elem := 20%nat; td := Some 2%nat; loc := Some posB;
     isDiffHunkNum := false; id := EmptyString |}.

Definition ctxA : Ctx := gesture_ctx the_props posA.
Definition ctxB : Ctx := gesture_ctx the_props posB.

Definition hoverA : Hover := {| hover_contents := Some ["func A()"] |}.
Definition hoverB : Hover := {| hover_contents := Some ["func B()"] |}.

Definition tooltipA : TooltipData :=
  {| target := 10%nat; ctx := ctxA; contents := Some ["func A()"];
     loading := false; defUrlOrError := None |}.
Definition tooltipB : TooltipData :=
  {| target := 20%nat; ctx := ctxB; contents := Some ["func B()"];
     loading := false; defUrlOrError := None |}.

(** A click on A whose gesture lookups have answered: the docking chain of
    A is started, with hover subscription 6 and definition subscription 7. *)
Definition click_A : list Event :=
  [Mouse click tgtA; DebounceElapsed;
   HoverNext 2%nat hoverA; HoverNext 3%nat hoverA].



(** A is docked: its docking hover lookup answered, the definition lookup
    (subscription 7) is still out. *)
Definition docked_A : World := run start (click_A ++ [HoverNext 6%nat hoverA]).

(** From [docked_A], a click on B whose gesture lookups have answered: the
    docking chain of B is started, with hover subscription 14 and
    definition subscription 15. *)
Definition click_B : list Event :=
  [Mouse click tgtB; DebounceElapsed;
   HoverNext 10%nat hoverB; HoverNext 11%nat hoverB].

Definition chain_B : FixedChain :=
  {| f_target := 20%nat; f_ctx := ctxB;
     f_hover := Some 14%nat; f_hoverValue := None;
     f_jump := Some 15%nat; f_jumpValue := None |}.

(** Hover over A, then click on A; every hover lookup answers.  The
    docking chain has hover subscription 10, answered by the last event,
    and definition subscription 11. *)
Definition hover_then_click_A : list Event :=
  [Mouse mouseover tgtA; DebounceElapsed;
   HoverNext 2%nat hoverA; HoverNext 3%nat hoverA;
   Mouse click tgtA; DebounceElapsed;
   HoverNext 6%nat hoverA; HoverNext 7%nat hoverA;
   HoverNext 10%nat hoverA].

End Example.

End Tooltips.

(** ** Facts about hunks *)

Module HunkFacts.

Import Hunk.
Local Open Scope Z_scope.

(** *** Splitting *)

Lemma split_newline_nonempty s : split_newline s ≠ [].
Proof.
  destruct s as [|c r]; simpl; [done|].
  destruct (Ascii.eqb c newline); [done|].
  destruct (split_newline r); done.
Qed.

Lemma split_newline_single s : has_newline s = false → split_newline s = [s].
Proof.
  induction s as [|c r IH]; simpl; [done|].
  intros H. apply orb_false_elim in H as [Hc Hr].
  rewrite Hc, (IH Hr). done.
Qed.

Lemma split_newline_snoc pre last :
  has_newline last = false →
  split_newline (pre +:+ String newline last) = split_newline pre ++ [last].
Proof.
  intros Hl. induction pre as [|c r IH]; simpl.
  - by rewrite (split_newline_single _ Hl).
  - destruct (Ascii.eqb c newline); [by rewrite IH|].
    rewrite IH. pose proof (split_newline_nonempty r) as Hne.
    destruct (split_newline r); [done|]. done.
Qed.

Lemma slice_0_minus1_snoc {A} (l : list A) x : slice_0_minus1 (l ++ [x]) = l.
Proof.
  unfold slice_0_minus1. rewrite length_app. simpl.
  replace (length l + 1 - 1)%nat with (length l) by lia.
  by rewrite take_app_length.
Qed.

Lemma body_lines_snoc pre last :
  has_newline last = false →
  body_lines (pre +:+ String newline last) = split_newline pre.
Proof.
  intros H. unfold body_lines. rewrite (split_newline_snoc _ _ H).
  apply slice_0_minus1_snoc.
Qed.

Lemma body_lines_single last : has_newline last = false → body_lines last = [].
Proof. intros H. unfold body_lines. by rewrite (split_newline_single _ H). Qed.

Lemma render_lines_length a h ln cnt i ls :
  length (render_lines a h ln cnt i ls) = length ls.
Proof.
  revert cnt i. induction ls as [|l ls IH]; intros cnt i; simpl; [done|].
  by rewrite IH.
Qed.

(** *** Markers *)

Lemma tag_of_marker_inv line t :
  tag_of_marker (char0 line) = Some t →
  match t with
  | Context =>
      char0_is line " " = true ∧ char0_is line "-" = false ∧
      char0_is line "+" = false
  | Removed =>
      char0_is line " " = false ∧ char0_is line "-" = true ∧
      char0_is line "+" = false
  | Added =>
      char0_is line " " = false ∧ char0_is line "-" = false ∧
      char0_is line "+" = true
  end.
Proof.
  unfold char0_is. destruct (char0 line) as [c|]; simpl; [|done].
  destruct (Ascii.eqb_spec c " ") as [->|?]; [intros [= <-]; done|].
  destruct (Ascii.eqb_spec c "-") as [->|?]; [intros [= <-]; done|].
  destruct (Ascii.eqb_spec c "+") as [->|?]; [intros [= <-]; done|].
  done.
Qed.

Lemma tag_of_marker_none line :
  tag_of_marker (char0 line) = None →
  char0_is line " " = false ∧ char0_is line "-" = false ∧
  char0_is line "+" = false.
Proof.
  unfold char0_is. destruct (char0 line) as [c|]; simpl; [|done].
  destruct (Ascii.eqb c " "); [done|].
  destruct (Ascii.eqb c "-"); [done|].
  destruct (Ascii.eqb c "+"); done.
Qed.

Lemma render_lines_agrees a hash cnt i ls tags :
  Forall2 (λ line t, tag_of_marker (char0 line) = Some t) ls tags →
  Forall2 agrees (render_lines a hash true cnt i ls)
    (spec_numbering (oldLine cnt) (newLine cnt) tags).
Proof.
  intros H. revert cnt i.
  induction H as [|line t ls tags Ht _ IH]; intros cnt i; [constructor|].
  apply tag_of_marker_inv in Ht.
  cbn [render_lines render_line]. unfold char0_isnt.
  destruct t; destruct Ht as (-> & -> & ->); cbn [negb spec_numbering];
    (constructor; [|apply (IH (Build_Counters _ _))]);
    (split_and!; [unfold row_old; cbn; f_equal; lia
                 |unfold row_new; cbn; f_equal; lia
                 |eexists; cbn; reflexivity]).
Qed.

(** *** The claims *)

(** C2.  On a hunk whose lines all start with [' '], ['-'] or ['+'], the
    rows [DiffHunk] renders carry the numbers of the specification's
    numbering model, started at the hunk's old and new start lines: the old
    number advances on context and removed rows and is not shown on added
    rows, the new number advances on context and added rows and is not
    shown on removed rows.  The body [" 1\\n-2\\n+3\\n+4\\n"] from line 1
    gives context (1, 1), removed (2, -), added (-, 2), added (-, 3). *)
Theorem numbering_refines_spec a hunk hash tags :
  Forall2 (λ line t, tag_of_marker (char0 line) = Some t)
    (body_lines (body hunk)) tags →
  Forall2 agrees (rows a hunk true hash)
    (spec_numbering (startLine (oldRange hunk)) (startLine (newRange hunk))
       tags) ∧
  body_lines (body example_hunk) = [" 1"; "-2"; "+3"; "+4"]%string ∧
  (λ r, (row_old r, row_new r)) <$> rows a example_hunk true hash =
    [(Some 1, Some 1); (Some 2, None); (None, Some 2); (None, Some 3)].
Proof.
  intros H. split; [|split].
  - unfold rows, DiffHunk; cbn [snd].
    exact (render_lines_agrees a hash (Build_Counters _ _) 0%nat _ _ H).
  - reflexivity.
  - reflexivity.
Qed.

Lemma numbering_refines_spec_witness :
  Forall2 agrees (rows "diff" example_hunk true "#diffR2")
    (spec_numbering 1 1 [Context; Removed; Added; Added]).
Proof.
  apply (numbering_refines_spec "diff" example_hunk "#diffR2"
           [Context; Removed; Added; Added]).
  repeat constructor.
Defined.

(** C5, as the code has it.  A line whose first character is none of
    [' '], ['-'], ['+'] (the empty line included) is no error: it gets a
    row like any other, with both line numbers shown and both counters
    advanced, without any of the three marker classes, and the lines after
    it are rendered as usual. *)
Theorem unmarked_line_rendered_as_row a hash ln cnt i line rest :
  tag_of_marker (char0 line) = None →
  render_lines a hash ln cnt i (line :: rest) =
    {| key := i;
       className :=
         line_class false false false +:+
         class_if
           (String.eqb hash ("#" +:+ a +:+ "L" +:+ show (oldLine cnt)) ||
            String.eqb hash ("#" +:+ a +:+ "R" +:+ show (newLine cnt)))
           "diff-hunk__line--active";
       nums :=
         if ln
         then Some (NumFilled (oldLine cnt) "old"
                      (a +:+ "L" +:+ show (oldLine cnt)),
                    NumFilled (newLine cnt) "new"
                      (a +:+ "R" +:+ show (newLine cnt)))
         else None;
       content := line |}
    :: render_lines a hash ln
         {| oldLine := oldLine cnt + 1; newLine := newLine cnt + 1 |}
         (S i) rest.
Proof.
  intros H. apply tag_of_marker_none in H as (H1 & H2 & H3).
  cbn [render_lines render_line]. unfold char0_isnt.
  rewrite H1, H2, H3. cbn [negb andb].
  rewrite !Z.add_simpl_r. reflexivity.
Qed.

Lemma unmarked_line_rendered_as_row_witness :
  rows "d" unmarked_hunk true EmptyString =
    [ {| key := 0; className := "diff-hunk__line    ";
         nums := Some (NumFilled 1 "old" "dL1", NumFilled 1 "new" "dR1");
         content := "x" |};
      {| key := 1;
         className := "diff-hunk__line   diff-hunk__line--addition ";
         nums := Some (NumEmpty, NumFilled 2 "new" "dR2");
         content := "+a" |} ].
Proof.
  unfold rows, DiffHunk; cbn [snd].
  change (body_lines (body unmarked_hunk)) with ["x"; "+a"]%string.
  rewrite (unmarked_line_rendered_as_row "d" EmptyString true _ 0%nat "x" ["+a"%string]);
    reflexivity.
Defined.

(** C5, as stated, fails: the hunk ["x\\n+a\\n"] has a line without
    marker, and it is rendered with line numbers and with the addition
    class on its second row, not as plain unlabeled text. *)
Lemma unmarked_line_counterexample :
  tag_of_marker (char0 "x") = None ∧
  rows "d" unmarked_hunk true EmptyString =
    [ {| key := 0; className := "diff-hunk__line    ";
         nums := Some (NumFilled 1 "old" "dL1", NumFilled 1 "new" "dR1");
         content := "x" |};
      {| key := 1;
         className := "diff-hunk__line   diff-hunk__line--addition ";
         nums := Some (NumEmpty, NumFilled 2 "new" "dR2");
         content := "+a" |} ] ∧
  ¬ Forall (λ r, row_old r = None ∧ row_new r = None)
      (rows "d" unmarked_hunk true EmptyString).
Proof.
  split; [reflexivity|]. split; [reflexivity|].
  intros H. apply Forall_cons in H as [[H _] _]. discriminate H.
Qed.

(** C10.  [DiffHunk] drops the last segment of [body.split('\\n')]
    whatever it is: the text after the last line feed gets no row and is
    not counted, so a body that does not end in a line feed loses its last
    line, and a body without line feed has no rows at all. *)
Theorem last_segment_dropped a hunk ln hash pre last :
  has_newline last = false →
  body_lines (pre +:+ String newline last) = split_newline pre ∧
  body_lines last = [] ∧
  rows a (with_body hunk (pre +:+ String newline last)) ln hash =
    rows a (with_body hunk (pre +:+ String newline EmptyString)) ln hash ∧
  rows a (with_body hunk last) ln hash = [] ∧
  length (rows a (with_body hunk (pre +:+ String newline last)) ln hash) =
    length (split_newline pre).
Proof.
  intros H. split_and!.
  - by apply body_lines_snoc.
  - by apply body_lines_single.
  - unfold rows, DiffHunk; simpl. by rewrite !body_lines_snoc.
  - unfold rows, DiffHunk; simpl. by rewrite body_lines_single.
  - unfold rows, DiffHunk; simpl. rewrite render_lines_length.
    by rewrite body_lines_snoc.
Qed.

Lemma last_segment_dropped_witness :
  body_lines (" 1" +:+ String newline "+2") = [" 1"%string] ∧
  rows "d" (with_body example_hunk (" 1" +:+ String newline "+2")) true EmptyString =
    rows "d" (with_body example_hunk (" 1" +:+ String newline EmptyString)) true EmptyString.
Proof.
  destruct (last_segment_dropped "d" example_hunk true EmptyString " 1" "+2")
    as (H1 & _ & H3 & _); [reflexivity|].
  split; [exact H1|exact H3].
Defined.

(** ** More of the hunk rendering *)


(** *** Whole hunks *)

Lemma join_newline_cons c h t :
  join_newline (String c h :: t) = String c (join_newline (h :: t)).
Proof. by destruct t. Qed.

Lemma join_split_newline s : join_newline (split_newline s) = s.
Proof.
  induction s as [|c r IH]; [done|]. cbn [split_newline].
  pose proof (split_newline_nonempty r) as Hne.
  destruct (Ascii.eqb_spec c newline) as [->|_].
  - destruct (split_newline r) as [|h t] eqn:E; [done|].
    change (join_newline (EmptyString :: h :: t))
      with (String newline (join_newline (h :: t))).
    by rewrite IH.
  - destruct (split_newline r) as [|h t] eqn:E; [done|].
    by rewrite join_newline_cons, IH.
Qed.

Lemma split_newline_length s :
  length (split_newline s) = S (count_newlines s).
Proof.
  induction s as [|c r IH]; [done|]. cbn [split_newline count_newlines].
  pose proof (split_newline_nonempty r) as Hne.
  destruct (Ascii.eqb c newline); cbn [length]; [by rewrite IH|].
  destruct (split_newline r) as [|h t]; [done|]. cbn in *. lia.
Qed.

Lemma split_newline_last b :
  split_newline b = body_lines b ++ [last_segment b].
Proof.
  pose proof (split_newline_nonempty b) as Hne.
  unfold body_lines, last_segment.
  destruct (split_newline b) as [|x l] using rev_ind; [done|].
  rewrite slice_0_minus1_snoc. by rewrite List.last_last.
Qed.

Lemma render_lines_content a hash ln cnt i ls :
  content <$> render_lines a hash ln cnt i ls = ls.
Proof.
  revert cnt i. induction ls as [|l ls IH]; intros cnt i; [done|].
  cbn [render_lines render_line fmap list_fmap]. cbn. f_equal. apply IH.
Qed.

Lemma render_lines_key a hash ln cnt i ls :
  key <$> render_lines a hash ln cnt i ls = seq i (length ls).
Proof.
  revert cnt i. induction ls as [|l ls IH]; intros cnt i; [done|].
  cbn [render_lines render_line fmap list_fmap]. cbn. f_equal. apply IH.
Qed.

Lemma rows_length a hunk ln hash :
  length (rows a hunk ln hash) = count_newlines (body hunk).
Proof.
  pose proof (split_newline_length (body hunk)) as H.
  rewrite split_newline_last, length_app in H. cbn in H.
  unfold rows, DiffHunk. cbn [snd]. rewrite render_lines_length. lia.
Qed.

(** X1.  The texts of the rows of a hunk, followed by the segment after the
    last line feed, joined by line feeds, are the hunk's body again: no
    character of a line is lost or changed in a row. *)
Theorem rows_contents_rebuild_body a hunk ln hash :
  join_newline
    ((content <$> rows a hunk ln hash) ++ [last_segment (body hunk)]) =
  body hunk.
Proof.
  unfold rows, DiffHunk. cbn [snd]. rewrite render_lines_content.
  by rewrite <- split_newline_last, join_split_newline.
Qed.

(** X2.  A hunk gets exactly one row per line feed of its body, and the
    rows have the keys 0, 1, 2, ... in order. *)
Theorem rows_count_and_keys a hunk ln hash :
  length (rows a hunk ln hash) = count_newlines (body hunk) ∧
  key <$> rows a hunk ln hash = seq 0 (count_newlines (body hunk)).
Proof.
  split; [apply rows_length|].
  rewrite <- (rows_length a hunk ln hash).
  unfold rows, DiffHunk. cbn [snd].
  by rewrite render_lines_key, render_lines_length.
Qed.


(** *** The numbers a column shows *)

Lemma render_lines_old a hash cnt i ls :
  omap row_old (render_lines a hash true cnt i ls) =
    consecutive (oldLine cnt)
      (length (List.filter (λ l, char0_isnt l "+") ls)).
Proof.
  revert cnt i. induction ls as [|l ls IH]; intros cnt i; [done|].
  cbn [render_lines render_line omap list_omap List.filter].
  unfold row_old at 1. cbn [nums].
  destruct (char0_isnt l "+"); cbn [cell_line length consecutive]; rewrite IH.
  - cbn [oldLine]. f_equal. f_equal. lia.
  - done.
Qed.

Lemma render_lines_new a hash cnt i ls :
  omap row_new (render_lines a hash true cnt i ls) =
    consecutive (newLine cnt)
      (length (List.filter (λ l, char0_isnt l "-") ls)).
Proof.
  revert cnt i. induction ls as [|l ls IH]; intros cnt i; [done|].
  cbn [render_lines render_line omap list_omap List.filter].
  unfold row_new at 1. cbn [nums].
  destruct (char0_isnt l "-"); cbn [cell_line length consecutive]; rewrite IH.
  - cbn [newLine]. f_equal. f_equal. lia.
  - done.
Qed.

(** X3.  Read from top to bottom, the old line numbers a hunk shows are
    consecutive from the hunk's old start line, one for every line that
    does not start with ['+']; the new line numbers are consecutive from
    the new start line, one for every line that does not start with ['-'].
    No number is skipped or shown twice, whatever the lines start with. *)
Theorem shown_numbers_are_consecutive a hunk hash :
  let ls := body_lines (body hunk) in
  omap row_old (rows a hunk true hash) =
    consecutive (startLine (oldRange hunk))
      (length (List.filter (λ l, char0_isnt l "+") ls)) ∧
  omap row_new (rows a hunk true hash) =
    consecutive (startLine (newRange hunk))
      (length (List.filter (λ l, char0_isnt l "-") ls)).
Proof.
  cbv zeta. unfold rows, DiffHunk. cbn [snd].
  by rewrite render_lines_old, render_lines_new.
Qed.

(** *** The ids of a hunk *)

Lemma append_inj_r (a s t : string) : a +:+ s = a +:+ t → s = t.
Proof. induction a as [|c a IH]; cbn; [done|]. intros [= H]. auto. Qed.

Lemma id_from_mono a cnt cnt' i :
  oldLine cnt ≤ oldLine cnt' → newLine cnt ≤ newLine cnt' →
  id_from a cnt' i → id_from a cnt i.
Proof.
  intros Ho Hn [(k & Hk & ->)|(k & Hk & ->)]; [left|right]; exists k;
    split; (lia || done).
Qed.

Lemma render_lines_ids a hash ln cnt i ls r x :
  r ∈ render_lines a hash ln cnt i ls → x ∈ row_ids r → id_from a cnt x.
Proof.
  revert cnt i. induction ls as [|l ls IH]; intros cnt i Hr Hx.
  - by apply elem_of_nil in Hr.
  - cbn [render_lines render_line] in Hr. apply elem_of_cons in Hr as [->|Hr].
    + unfold row_ids in Hx. cbn [nums] in Hx. destruct ln; [|by apply elem_of_nil in Hx].
      apply elem_of_app in Hx as [Hx|Hx].
      * destruct (char0_isnt l "+"); [|by apply elem_of_nil in Hx].
        apply list_elem_of_singleton in Hx as ->. left.
        exists (oldLine cnt + 1 - 1). split; [lia|done].
      * destruct (char0_isnt l "-"); [|by apply elem_of_nil in Hx].
        apply list_elem_of_singleton in Hx as ->. right.
        exists (newLine cnt + 1 - 1). split; [lia|done].
    + eapply id_from_mono; [| |exact (IH _ _ Hr Hx)]; cbn;
        [destruct (char0_isnt l "+")|destruct (char0_isnt l "-")]; lia.
Qed.

Lemma old_id_inj a k k' : a +:+ "L" +:+ show k = a +:+ "L" +:+ show k' → k = k'.
Proof.
  intros H. apply append_inj_r in H. injection H as H.
  unfold show in H. cbn [String.append] in H. exact (pretty_Z_inj _ _ H).
Qed.

Lemma new_id_inj a k k' : a +:+ "R" +:+ show k = a +:+ "R" +:+ show k' → k = k'.
Proof.
  intros H. apply append_inj_r in H. injection H as H.
  unfold show in H. cbn [String.append] in H. exact (pretty_Z_inj _ _ H).
Qed.

Lemma old_new_id a k k' : a +:+ "L" +:+ show k ≠ a +:+ "R" +:+ show k'.
Proof. intros H. apply append_inj_r in H. discriminate H. Qed.

Lemma render_lines_ids_NoDup a hash ln cnt i ls :
  NoDup (mjoin (row_ids <$> render_lines a hash ln cnt i ls)).
Proof.
  revert cnt i. induction ls as [|l ls IH]; intros cnt i; [constructor|].
  cbn [render_lines render_line fmap list_fmap mjoin list_join].
  apply NoDup_app. split_and!; [| |apply IH].
  - unfold row_ids. cbn [nums]. destruct ln; [|constructor].
    destruct (char0_isnt l "+"), (char0_isnt l "-"); cbn;
      repeat constructor; try (by intros H%elem_of_nil).
    intros H%list_elem_of_singleton. by apply old_new_id in H.
  - intros x Hx Hin. apply list_elem_of_join in Hin as (ids & Hin & Hids).
    apply list_elem_of_fmap in Hids as (r & -> & Hr).
    pose proof (render_lines_ids _ _ _ _ _ _ _ _ Hr Hin) as Hfrom.
    unfold id_from in Hfrom. cbn [oldLine newLine] in Hfrom.
    unfold row_ids in Hx. cbn [nums] in Hx.
    destruct ln; [|by apply elem_of_nil in Hx].
    apply elem_of_app in Hx as [Hx|Hx].
    + destruct (char0_isnt l "+"); [|by apply elem_of_nil in Hx].
      apply list_elem_of_singleton in Hx as ->.
      destruct Hfrom as [(k & Hk & E)|(k & Hk & E)].
      * apply old_id_inj in E. lia.
      * by apply old_new_id in E.
    + destruct (char0_isnt l "-"); [|by apply elem_of_nil in Hx].
      apply list_elem_of_singleton in Hx as ->.
      destruct Hfrom as [(k & Hk & E)|(k & Hk & E)].
      * symmetry in E. by apply old_new_id in E.
      * apply new_id_inj in E. lia.
Qed.

(** X4.  Within a hunk no [id] attribute is used twice: the ids of the
    line-number cells are pairwise different, across rows and across the
    two columns, whatever the body and the anchor are. *)
Theorem hunk_ids_are_unique a hunk ln hash :
  NoDup (mjoin (row_ids <$> rows a hunk ln hash)).
Proof. apply render_lines_ids_NoDup. Qed.


(** *** The active row *)

Lemma render_line_active a hash ln cnt i l :
  has_active_class (className (render_line a hash ln cnt i l).2) = true →
  (char0_isnt l "+" = true ∧
   hash = "#" +:+ a +:+ "L" +:+ show (oldLine cnt)) ∨
  (char0_isnt l "-" = true ∧
   hash = "#" +:+ a +:+ "R" +:+ show (newLine cnt)).
Proof.
  cbn [render_line snd className]. unfold char0_isnt.
  destruct (char0_is l "+") eqn:Ep, (char0_is l "-") eqn:Em;
    cbn [negb andb orb]; rewrite ?Z.add_simpl_r;
    repeat match goal with
    | |- context [String.eqb ?x ?y] => destruct (String.eqb_spec x y)
    end;
    destruct (char0_is l " "); try (by vm_compute); auto.
Qed.

Lemma render_lines_active a hash ln cnt i ls r :
  r ∈ render_lines a hash ln cnt i ls →
  has_active_class (className r) = true →
  ∃ x, id_from a cnt x ∧ hash = "#" +:+ x.
Proof.
  revert cnt i. induction ls as [|l ls IH]; intros cnt i Hr Ha.
  - by apply elem_of_nil in Hr.
  - cbn [render_lines] in Hr.
    destruct (render_line a hash ln cnt i l) as [cnt' row] eqn:E.
    apply elem_of_cons in Hr as [->|Hr].
    + replace row with (render_line a hash ln cnt i l).2 in Ha by by rewrite E.
      apply render_line_active in Ha as [[_ ->]|[_ ->]]; eexists; (split; [|done]).
      * left. exists (oldLine cnt). split; [lia|done].
      * right. exists (newLine cnt). split; [lia|done].
    + destruct (IH _ _ Hr Ha) as (x & Hx & ->). exists x. split; [|done].
      eapply id_from_mono; [| |exact Hx];
        injection E as <- _; cbn;
        [destruct (char0_isnt l "+")|destruct (char0_isnt l "-")]; lia.
Qed.

Lemma render_lines_one_active a hash ln cnt i ls :
  (length (List.filter (λ r, has_active_class (className r))
             (render_lines a hash ln cnt i ls)) ≤ 1)%nat.
Proof.
  revert cnt i. induction ls as [|l ls IH]; intros cnt i; [cbn; lia|].
  cbn [render_lines].
  destruct (render_line a hash ln cnt i l) as [cnt' row] eqn:E.
  cbn [List.filter].
  destruct (has_active_class (className row)) eqn:Ha; [|apply IH].
  assert (List.filter (λ r, has_active_class (className r))
            (render_lines a hash ln cnt' (S i) ls) = []) as ->; [|cbn; lia].
  destruct (List.filter _ _) as [|r rest] eqn:F; [done|exfalso].
  assert (List.In r (List.filter (λ r, has_active_class (className r))
                       (render_lines a hash ln cnt' (S i) ls))) as Hin
    by (rewrite F; by left).
  apply List.filter_In in Hin as [Hin Hr]. apply list_elem_of_In in Hin.
  destruct (render_lines_active _ _ _ _ _ _ _ Hin Hr) as (x & Hx & Hh).
  replace row with (render_line a hash ln cnt i l).2 in Ha by by rewrite E.
  injection E as <- _. unfold id_from in Hx. cbn [oldLine newLine] in Hx.
  apply render_line_active in Ha as [[Hp Ho]|[Hm Hn]].
  - rewrite Hp in Hx. rewrite Ho in Hh. injection Hh as Hh.
    destruct Hx as [(k & Hk & ->)|(k & Hk & ->)].
    + apply old_id_inj in Hh. lia.
    + by apply old_new_id in Hh.
  - rewrite Hm in Hx. rewrite Hn in Hh. injection Hh as Hh.
    destruct Hx as [(k & Hk & ->)|(k & Hk & ->)].
    + symmetry in Hh. by apply old_new_id in Hh.
    + apply new_id_inj in Hh. lia.
Qed.

(** X5.  Whatever the location hash is, at most one row of a hunk gets the
    active class. *)
Theorem at_most_one_active_row a hunk ln hash :
  (length (List.filter (λ r, has_active_class (className r))
             (rows a hunk ln hash)) ≤ 1)%nat.
Proof. apply render_lines_one_active. Qed.

(** *** The table *)

(** X6.  [render] shows the "No changes" note exactly when there is no
    hunk.  Otherwise the table has one boundary row per hunk and one line
    row per line feed of the bodies, in the order of the hunks, and the
    column group exactly when line numbers are on. *)
Theorem render_table a cls hash hunks ln :
  (children (render a cls hash hunks ln) = NoChanges ↔ hunks = []) ∧
  table_rows (render a cls hash hunks ln) =
    sum_list ((λ h, S (count_newlines (body h))) <$> hunks) ∧
  ∀ t, children (render a cls hash hunks ln) = Container t →
       colgroup t = ln ∧
       (tbody t).*2 = (λ h, rows a h ln hash) <$> hunks.
Proof.
  assert (sum_list
            ((λ h : Boundary * list Row, S (length h.2)) <$>
             ((λ hunk, DiffHunk a hunk ln hash) <$> hunks)) =
          sum_list ((λ h, S (count_newlines (body h))) <$> hunks)) as Sum.
  { induction hunks as [|h hs IH]; [done|]. cbn [fmap list_fmap sum_list].
    fold (rows a h ln hash).
    rewrite rows_length. f_equal. apply IH. }
  assert (((λ hunk, DiffHunk a hunk ln hash) <$> hunks).*2 =
          (λ h, rows a h ln hash) <$> hunks) as Rows.
  { clear Sum. induction hunks as [|h hs IH]; [done|].
    rewrite !fmap_cons, IH. reflexivity. }
  unfold render, table_rows. cbn [children].
  destruct hunks as [|h hs]; cbn [length Nat.eqb].
  - split_and!; [done|done|]. by intros t.
  - split_and!.
    + by split.
    + exact Sum.
    + intros t [= <-]. cbn [colgroup tbody]. by split.
Qed.

Lemma render_table_witness :
  table_rows (render "diff-0" "mt-2" "#diff-0R2" [example_hunk] true) = 5%nat.
Proof.
  destruct (render_table "diff-0" "mt-2" "#diff-0R2" [example_hunk] true)
    as (_ & H & _).
  rewrite H. reflexivity.
Defined.


(** *** The ids of the table *)

(** An id of the old side with a number in [lo, hi), or of the new side
    with a number in [lo', hi'). *)
Lemma render_lines_ids_within a hash ln cnt i ls r x :
  r ∈ render_lines a hash ln cnt i ls → x ∈ row_ids r →
  (∃ k, oldLine cnt ≤ k <
          oldLine cnt +
          Z.of_nat (length (List.filter (λ l, char0_isnt l "+") ls)) ∧
        x = a +:+ "L" +:+ show k) ∨
  (∃ k, newLine cnt ≤ k <
          newLine cnt +
          Z.of_nat (length (List.filter (λ l, char0_isnt l "-") ls)) ∧
        x = a +:+ "R" +:+ show k).
Proof.
  revert cnt i. induction ls as [|l ls IH]; intros cnt i Hr Hx.
  - by apply elem_of_nil in Hr.
  - cbn [render_lines render_line] in Hr. cbn [List.filter].
    apply elem_of_cons in Hr as [->|Hr].
    + unfold row_ids in Hx. cbn [nums] in Hx.
      destruct ln; [|by apply elem_of_nil in Hx].
      apply elem_of_app in Hx as [Hx|Hx].
      * destruct (char0_isnt l "+"); [|by apply elem_of_nil in Hx].
        apply list_elem_of_singleton in Hx as ->. left.
        exists (oldLine cnt + 1 - 1). split; [cbn [length]; lia|done].
      * destruct (char0_isnt l "-"); [|by apply elem_of_nil in Hx].
        apply list_elem_of_singleton in Hx as ->. right.
        exists (newLine cnt + 1 - 1). split; [cbn [length]; lia|done].
    + destruct (IH _ _ Hr Hx) as [(k & Hk & ->)|(k & Hk & ->)];
        [left|right]; exists k; (split; [|done]); cbn [oldLine newLine] in Hk;
        destruct (char0_isnt l "+"), (char0_isnt l "-"); cbn [length]; lia.
Qed.

Lemma hunk_ids_within a hunk ln hash x :
  x ∈ mjoin (row_ids <$> rows a hunk ln hash) →
  (∃ k, startLine (oldRange hunk) ≤ k <
          startLine (oldRange hunk) + counted_lines "+" hunk ∧
        x = a +:+ "L" +:+ show k) ∨
  (∃ k, startLine (newRange hunk) ≤ k <
          startLine (newRange hunk) + counted_lines "-" hunk ∧
        x = a +:+ "R" +:+ show k).
Proof.
  intros (ids & Hin & Hids)%list_elem_of_join.
  apply list_elem_of_fmap in Hids as (r & -> & Hr).
  exact (render_lines_ids_within _ _ _ _ _ _ _ _ Hr Hin).
Qed.

(** X7.  When the hunks follow one another without sharing a line on
    either side, no [id] attribute is used twice in the whole table: every
    line-number cell can be addressed by its anchor. *)
Theorem table_ids_are_unique a cls hash hunks ln :
  hunks_apart hunks = true →
  NoDup (table_ids (render a cls hash hunks ln)).
Proof.
  intros H. unfold table_ids, render. cbn [children].
  destruct (Nat.eqb (length hunks) 0); [constructor|]. cbn [tbody].
  induction hunks as [|h hs IH]; [constructor|].
  cbn [hunks_apart] in H. apply andb_prop in H as [Hh Hs].
  cbn [fmap list_fmap mjoin list_join]. apply NoDup_app. split_and!.
  - apply render_lines_ids_NoDup.
  - intros x Hx (ids & Hin & Hids)%list_elem_of_join.
    apply list_elem_of_fmap in Hids as (b & -> & Hb).
    apply list_elem_of_fmap in Hb as (h' & -> & Hh').
    rewrite forallb_forall in Hh.
    specialize (Hh h' (proj1 (list_elem_of_In _ _) Hh')).
    unfold ends_before in Hh. apply andb_prop in Hh as [Ho Hn].
    apply Z.leb_le in Ho, Hn.
    apply (hunk_ids_within a h ln hash) in Hx.
    apply (hunk_ids_within a h' ln hash) in Hin.
    destruct Hx as [(k & Hk & ->)|(k & Hk & ->)],
             Hin as [(k' & Hk' & E)|(k' & Hk' & E)].
    + apply old_id_inj in E. lia.
    + by apply old_new_id in E.
    + symmetry in E. by apply old_new_id in E.
    + apply new_id_inj in E. lia.
  - by apply IH.
Qed.

Lemma table_ids_are_unique_witness :
  NoDup (table_ids
           (render "diff-0" "mt-2" "#diff-0R2"
              [example_hunk;
               {| oldRange := {| startLine := 40; lines := Some 1 |};
                  newRange := {| startLine := 41; lines := Some 1 |};
                  section := None;
                  body := String.append " z" (String newline EmptyString) |}]
              true)).
Proof. apply table_ids_are_unique. vm_compute. reflexivity. Defined.

End HunkFacts.

(** ** Facts about the tooltip pipelines *)

Module TooltipFacts.

Import Tooltips.

(** *** Running the model on a given world *)

Ltac destruct_world w :=
  destruct w as [props_ state_
                 [highlight_ sticky_ cursor_ annotated_ shown_]
                 trace_ fresh_ ref_ subs_ debounce_ gesture_ fixed_].

(** Unfolds the callbacks down to the updates of the world. *)
Ltac exec :=
  cbv beta iota zeta delta
    [step on_event on_mouse on_debounce on_loading on_mouseout on_keydown
     gesture_event gesture_tap gesture_switchMap gesture_notifier_next
     gesture_tooltip_next gesture_interval_tick gesture_error
     gesture_subscriber fixed_hover_next fixed_jump_next fixed_error
     fixed_tap fixed_subscriber fixedTooltip_next fixed_switchMap
     dock_or_clear setElement setElement_null componentWillUnmount
     mounted constructed
     handleGoToDefinition handleFindReferences handleDismiss
     setFixedTooltip getTooltip getTooltip_next getDefinition
     call_getHover call_getJumpURL subscribe updateTooltip hideTooltip
     remove_selection_highlight remove_selection_highlight_sticky
     add_selection_highlight add_selection_highlight_sticky
     set_cursor_pointer add_annotated set_shown
     when skip gets emit new_id set_state set_dom set_open set_debounce
     set_gestureInner set_fixedInner mbind mret M_bind M_ret fst snd
     props state_fixedTooltip dom trace fresh refSubscriptions
     subscriptions debounce gestureInner fixedInner
     g_type g_target g_ctx g_notifier g_interval g_tooltip
     f_target f_ctx f_hover f_hoverValue f_jump f_jumpValue
     with_definition bare loading_data
     target ctx contents loading defUrlOrError
     selection_highlight selection_highlight_sticky cursor_pointer
     annotated shown] in *.

(** Splits on the conditions a callback tests, running it in between. *)
Ltac handler_cases :=
  repeat (exec;
    match goal with
    | |- context [match ?x with _ => _ end] => is_var x; destruct x
    | |- context [if ?x then _ else _] => destruct x eqn:?
    end);
  exec.

Lemma run_snoc w es e : run w (es ++ [e]) = step (run w es) e.
Proof. unfold run. by rewrite fold_left_app. Qed.

Lemma run_app w es es' : run w (es ++ es') = run (run w es) es'.
Proof. unfold run. by rewrite fold_left_app. Qed.

Lemma reachable_mounted p d : reachable (mounted p d).
Proof. by exists p, d, []. Qed.

Lemma reachable_step w e : reachable w → reachable (step w e).
Proof.
  intros (p & d & es & ->). exists p, d, (es ++ [e]). by rewrite run_snoc.
Qed.

Lemma reachable_run w es : reachable w → reachable (run w es).
Proof.
  revert w. induction es as [|e es IH]; intros w H; [done|].
  apply IH, reachable_step, H.
Qed.

Lemma reachable_invariant (I : World → Prop) :
  (∀ p d, I (mounted p d)) →
  (∀ w e, I w → I (step w e)) →
  ∀ w, reachable w → I w.
Proof.
  intros Hm Hs w (p & d & es & ->).
  induction es as [|e es IH] using rev_ind; [apply Hm|].
  rewrite run_snoc. by apply Hs.
Qed.

(** *** Actions that keep a property *)

Lemma preserves_bind {A B} I (m : M A) (k : A → M B) :
  preserves I m → (∀ x, preserves I (k x)) → preserves I (m ≫= k).
Proof.
  intros Hm Hk w H. specialize (Hm w H). unfold mbind, M_bind.
  destruct (m w) as [x w']. by apply Hk.
Qed.

Lemma preserves_ret {A} I (x : A) : preserves I (mret x).
Proof. by intros w H. Qed.

Lemma preserves_skip I : preserves I skip.
Proof. apply preserves_ret. Qed.

Lemma preserves_gets {A} I (f : World → A) : preserves I (gets f).
Proof. by intros w H. Qed.

Lemma preserves_when I b m : preserves I m → preserves I (when b m).
Proof. intros H. destruct b; [done|apply preserves_skip]. Qed.

Ltac preserves_auto db :=
  repeat first
    [ progress intros
    | solve [auto with db]
    | apply preserves_bind
    | apply preserves_when
    | match goal with
      | |- preserves _ (match ?x with _ => _ end) => destruct x
      | |- preserves _ (if ?x then _ else _) => destruct x
      end ].

(** *** The docked tooltip, its class and the display *)

Lemma same_docking_ok w w' : same_docking w w' → docked_ok w → docked_ok w'.
Proof. intros (H1 & H2 & H3) H. unfold docked_ok. by rewrite H1, H2, H3. Qed.

Ltac docking_untouched :=
  intros w H; apply (same_docking_ok w); [by destruct_world w; exec|exact H].

Lemma docked_emit e : preserves docked_ok (emit e).
Proof. docking_untouched. Qed.
Lemma docked_new_id : preserves docked_ok new_id.
Proof. docking_untouched. Qed.
Lemma docked_set_open r s : preserves docked_ok (set_open r s).
Proof. docking_untouched. Qed.
Lemma docked_set_debounce d : preserves docked_ok (set_debounce d).
Proof. docking_untouched. Qed.
Lemma docked_set_gestureInner g : preserves docked_ok (set_gestureInner g).
Proof. docking_untouched. Qed.
Lemma docked_set_fixedInner f : preserves docked_ok (set_fixedInner f).
Proof. docking_untouched. Qed.
Lemma docked_remove_selection_highlight :
  preserves docked_ok remove_selection_highlight.
Proof. docking_untouched. Qed.
Lemma docked_add_selection_highlight el :
  preserves docked_ok (add_selection_highlight el).
Proof. docking_untouched. Qed.
Lemma docked_set_cursor_pointer el :
  preserves docked_ok (set_cursor_pointer el).
Proof. docking_untouched. Qed.
Lemma docked_add_annotated el : preserves docked_ok (add_annotated el).
Proof. docking_untouched. Qed.

Create HintDb docked.
#[local] Hint Resolve docked_emit docked_new_id docked_set_open
  docked_set_debounce docked_set_gestureInner docked_set_fixedInner
  docked_remove_selection_highlight docked_add_selection_highlight
  docked_set_cursor_pointer docked_add_annotated
  preserves_ret preserves_skip preserves_gets : docked.

(** Clearing restores the property from any state. *)
Lemma setFixedTooltip_None_docked w : docked_ok (setFixedTooltip None w).2.
Proof. destruct_world w. split; exec; done. Qed.

Lemma docked_dock_or_clear data : preserves docked_ok (dock_or_clear data).
Proof.
  intros w _. unfold dock_or_clear. destruct (no_contents (contents data)).
  - apply setFixedTooltip_None_docked.
  - destruct_world w.
    destruct (defUrlOrError data) eqn:E; split; exec; rewrite ?E;
      try done; apply union_empty_r_L.
Qed.

Lemma docked_fixed_subscriber data :
  preserves docked_ok (fixed_subscriber data).
Proof.
  destruct data; [apply docked_dock_or_clear|].
  intros w _. apply setFixedTooltip_None_docked.
Qed.

Lemma docked_handleDismiss : preserves docked_ok handleDismiss.
Proof. intros w _. apply setFixedTooltip_None_docked. Qed.

Lemma docked_getTooltip_next t c data :
  preserves docked_ok (getTooltip_next t c data).
Proof. unfold getTooltip_next. preserves_auto docked. Qed.

Lemma docked_call_getHover c : preserves docked_ok (call_getHover c).
Proof. unfold call_getHover. preserves_auto docked. Qed.

Lemma docked_call_getJumpURL c : preserves docked_ok (call_getJumpURL c).
Proof. unfold call_getJumpURL. preserves_auto docked. Qed.

Lemma docked_subscribe o : preserves docked_ok (subscribe o).
Proof. unfold subscribe. preserves_auto docked. Qed.

#[local] Hint Resolve docked_dock_or_clear docked_fixed_subscriber
  docked_handleDismiss docked_getTooltip_next docked_call_getHover
  docked_call_getJumpURL docked_subscribe : docked.

Lemma docked_fixed_switchMap data :
  preserves docked_ok (fixed_switchMap data).
Proof.
  unfold fixed_switchMap, getTooltip, getDefinition. preserves_auto docked.
Qed.

#[local] Hint Resolve docked_fixed_switchMap : docked.

(** A hover result is displayed only when nothing is docked. *)
Lemma docked_gesture_subscriber type data :
  preserves docked_ok (gesture_subscriber type data).
Proof.
  unfold gesture_subscriber, fixedTooltip_next. destruct type.
  - apply preserves_bind; [auto with docked|intros _].
    intros w H. destruct_world w. destruct H as [H1 H2].
    destruct state_; exec; by split.
  - preserves_auto docked.
Qed.

Lemma docked_on_mouseout : preserves docked_ok on_mouseout.
Proof.
  intros w [H1 H2]. destruct_world w.
  destruct subs_, state_; exec; by split.
Qed.

Lemma docked_handleGoToDefinition defCtx e :
  preserves docked_ok (handleGoToDefinition defCtx e).
Proof.
  intros w H. destruct_world w. destruct H as [H1 H2]. exec.
  destruct (any_modifier e); by split.
Qed.

#[local] Hint Resolve docked_gesture_subscriber docked_on_mouseout
  docked_handleGoToDefinition : docked.

Lemma docked_on_event e : preserves docked_ok (on_event e).
Proof.
  destruct e;
    unfold on_event, on_mouse, on_debounce, on_loading, on_keydown,
      setElement_null, componentWillUnmount, gesture_event, gesture_tap, gesture_switchMap, gesture_notifier_next,
      gesture_tooltip_next, gesture_interval_tick, gesture_error,
      fixed_hover_next, fixed_jump_next, fixed_error, fixed_tap,
      getTooltip, getDefinition, handleFindReferences.
  all: preserves_auto docked.
Qed.

Lemma docked_mounted p d : docked_ok (mounted p d).
Proof. destruct d. split; exec; done. Qed.

Lemma docked_reachable w : reachable w → docked_ok w.
Proof.
  apply reachable_invariant; [apply docked_mounted|].
  intros w' e. apply docked_on_event.
Qed.

(** *** The pipes *)

Lemma evolves_refl w : evolves w w.
Proof. split; intros; auto. Qed.

Lemma evolves_trans w1 w2 w3 : evolves w1 w2 → evolves w2 w3 → evolves w1 w3.
Proof.
  intros [F1 G1 X1 A1] [F2 G2 X2 A2]. split.
  - lia.
  - intros s H. destruct (G2 s H) as [H'|?]; [|lia].
    destruct (G1 s H'); [auto|lia].
  - intros s H. destruct (X2 s H) as [H'|?]; [|lia].
    destruct (X1 s H'); [auto|lia].
  - auto.
Qed.

(** How one basic step may change the pipes: new identities are taken from
    [fresh] on, at most one of the two chains gets new subscriptions, and
    the interval stays tied to its notifier. *)
Lemma evolves_intro w w' :
  fresh w ≤ fresh w' →
  (∀ s, gesture_live w' s = true →
        gesture_live w s = true ∨ fresh w ≤ s < fresh w') →
  (∀ s, fixed_live w' s = true →
        fixed_live w s = true ∨ fresh w ≤ s < fresh w') →
  (∀ s, gesture_live w' s = true → gesture_live w s = true) ∨
  (∀ s, fixed_live w' s = true → fixed_live w s = true) →
  (timer_ok w → timer_ok w') →
  evolves w w'.
Proof.
  intros F G X One T. split; [done..|].
  intros (Bg & Bx & Ap & Tm). split_and!; [| | |auto].
  - intros s H. destruct (G s H) as [H'|?]; [|lia]. specialize (Bg s H'). lia.
  - intros s H. destruct (X s H) as [H'|?]; [|lia]. specialize (Bx s H'). lia.
  - intros s Hg. destruct (fixed_live w' s) eqn:Hx; [exfalso|done].
    destruct One as [Old|Old].
    + specialize (Old s Hg). specialize (Bg s Old). specialize (Ap s Old).
      destruct (X s Hx) as [H'|?]; [congruence|lia].
    + specialize (Old s Hx). specialize (Bx s Old).
      destruct (G s Hg) as [H'|?]; [|lia]. specialize (Ap s H'). congruence.
Qed.

Lemma same_pipes_evolves w w' : same_pipes w w' → evolves w w'.
Proof.
  intros (F & G & X).
  apply evolves_intro; unfold gesture_live, fixed_live, timer_ok;
    rewrite ?F, ?G, ?X; auto.
Qed.

Lemma evolving_ret {A} (x : A) : evolving (mret x).
Proof. intros w. apply evolves_refl. Qed.

Lemma evolving_skip : evolving skip.
Proof. apply evolving_ret. Qed.

Lemma evolving_bind {A B} (m : M A) (k : A → M B) :
  evolving m → (∀ x, evolving (k x)) → evolving (m ≫= k).
Proof.
  intros Hm Hk w. specialize (Hm w). unfold mbind, M_bind.
  destruct (m w) as [x w1]. specialize (Hk x w1).
  eapply evolves_trans; [exact Hm|exact Hk].
Qed.

Lemma evolving_when b m : evolving m → evolving (when b m).
Proof. destruct b; [done|]. intros _. apply evolving_ret. Qed.

Lemma evolving_gets {A} (f : World → A) : evolving (gets f).
Proof. intros w. apply evolves_refl. Qed.

Ltac pipes_untouched :=
  intros w; apply same_pipes_evolves; destruct_world w; by exec.

Lemma evolving_emit e : evolving (emit e).
Proof. pipes_untouched. Qed.
Lemma evolving_set_state d : evolving (set_state d).
Proof. pipes_untouched. Qed.
Lemma evolving_set_dom f : evolving (set_dom f).
Proof. pipes_untouched. Qed.
Lemma evolving_set_open r s : evolving (set_open r s).
Proof. pipes_untouched. Qed.
Lemma evolving_set_debounce d : evolving (set_debounce d).
Proof. pipes_untouched. Qed.

Ltac live_unfold :=
  cbv beta iota zeta delta
    [gesture_live fixed_live timer_ok is_sub gestureInner fixedInner fresh
     g_type g_target g_ctx g_notifier g_interval g_tooltip
     f_target f_ctx f_hover f_hoverValue f_jump f_jumpValue] in *.

Ltac live_side :=
  live_unfold; intros;
  rewrite ?orb_true_iff, ?bool_decide_eq_true in *;
  first [done | lia | intuition (simplify_eq; first [done | lia])].

(** The side conditions of [evolves_intro] on a computed world. *)
Ltac evolves_computed :=
  apply evolves_intro;
  [ live_side | live_side | live_side
  | first [left; solve [live_side] | right; solve [live_side]]
  | live_side ].

Lemma evolving_new_id : evolving new_id.
Proof. intros w. destruct_world w. exec. evolves_computed. Qed.

Create HintDb pipes.
#[local] Hint Resolve evolving_ret evolving_skip evolving_gets evolving_emit
  evolving_set_state evolving_set_dom evolving_set_open
  evolving_set_debounce evolving_new_id : pipes.

Ltac evolving_auto :=
  repeat first
    [ progress intros
    | solve [auto with pipes]
    | apply evolving_bind
    | apply evolving_when
    | match goal with
      | |- evolving (match ?x with _ => _ end) => destruct x
      | |- evolving (if ?x then _ else _) => destruct x
      end ].

Lemma evolving_setFixedTooltip d : evolving (setFixedTooltip d).
Proof.
  unfold setFixedTooltip, hideTooltip, remove_selection_highlight,
    remove_selection_highlight_sticky, add_selection_highlight_sticky,
    set_shown.
  evolving_auto.
Qed.

Lemma evolving_updateTooltip d b : evolving (updateTooltip d b).
Proof. unfold updateTooltip, set_shown. evolving_auto. Qed.

Lemma evolving_hideTooltip : evolving hideTooltip.
Proof. unfold hideTooltip, set_shown. evolving_auto. Qed.

#[local] Hint Resolve evolving_setFixedTooltip evolving_updateTooltip
  evolving_hideTooltip : pipes.

Lemma evolving_dock_or_clear d : evolving (dock_or_clear d).
Proof. unfold dock_or_clear. evolving_auto. Qed.

#[local] Hint Resolve evolving_dock_or_clear : pipes.

Lemma evolving_fixed_subscriber d : evolving (fixed_subscriber d).
Proof. unfold fixed_subscriber. evolving_auto. Qed.

Lemma evolving_getTooltip_next t c d : evolving (getTooltip_next t c d).
Proof.
  unfold getTooltip_next, set_cursor_pointer, add_selection_highlight.
  evolving_auto.
Qed.

#[local] Hint Resolve evolving_fixed_subscriber evolving_getTooltip_next
  : pipes.

(** Starting a chain: its subscriptions are new. *)
Lemma evolving_start_fixed d : evolving (fixed_switchMap (Some d)).
Proof. intros w; destruct_world w; exec. evolves_computed. Qed.

Lemma evolving_set_fixedInner_None : evolving (set_fixedInner None).
Proof. intros w; destruct_world w; exec. evolves_computed. Qed.

Lemma evolving_set_gestureInner_None : evolving (set_gestureInner None).
Proof. intros w; destruct_world w; exec. evolves_computed. Qed.

#[local] Hint Resolve evolving_start_fixed evolving_set_fixedInner_None
  evolving_set_gestureInner_None : pipes.

Lemma evolving_fixed_switchMap d : evolving (fixed_switchMap d).
Proof.
  destruct d; [auto with pipes|]. unfold fixed_switchMap. evolving_auto.
Qed.

#[local] Hint Resolve evolving_fixed_switchMap : pipes.

Lemma evolving_gesture_switchMap ty t c : evolving (gesture_switchMap ty t c).
Proof. intros w; destruct_world w; exec. evolves_computed. Qed.

Lemma evolving_gesture_subscriber ty d : evolving (gesture_subscriber ty d).
Proof.
  unfold gesture_subscriber, fixedTooltip_next. destruct ty; evolving_auto.
Qed.

#[local] Hint Resolve evolving_gesture_switchMap evolving_gesture_subscriber
  : pipes.

(** Shrinking a chain: the handler gets the chain that is live, and closes
    some of its subscriptions. *)
Lemma evolving_gesture_notifier_next g d w :
  gestureInner w = Some g → evolves w (gesture_notifier_next g d w).2.
Proof.
  intros E. destruct_world w. exec. subst. destruct g as [ty t c n i tt].
  handler_cases; evolves_computed.
Qed.

Lemma evolving_gesture_tooltip_next g d w :
  gestureInner w = Some g → evolves w (gesture_tooltip_next g d w).2.
Proof.
  intros E. destruct_world w. exec. subst. destruct g as [ty t c n i tt].
  handler_cases; evolves_computed.
Qed.

Lemma evolving_gesture_interval_tick g w :
  gestureInner w = Some g → evolves w (gesture_interval_tick g w).2.
Proof.
  intros E. destruct_world w. exec. subst. destruct g as [ty t c n i tt].
  handler_cases; evolves_computed.
Qed.

Lemma evolving_gesture_error g err w :
  gestureInner w = Some g → evolves w (gesture_error g err w).2.
Proof.
  intros E. destruct_world w. exec. subst. destruct g as [ty t c n i tt].
  handler_cases; evolves_computed.
Qed.

Lemma evolving_fixed_hover_next f d w :
  fixedInner w = Some f → evolves w (fixed_hover_next f d w).2.
Proof.
  intros E. destruct_world w. exec. subst. destruct f as [t c h hv j jv].
  handler_cases; evolves_computed.
Qed.

Lemma evolving_fixed_jump_next f r w :
  fixedInner w = Some f → evolves w (fixed_jump_next f r w).2.
Proof.
  intros E. destruct_world w. exec. subst. destruct f as [t c h hv j jv].
  handler_cases; evolves_computed.
Qed.

Lemma evolving_fixed_error f err w :
  fixedInner w = Some f → evolves w (fixed_error f err w).2.
Proof.
  intros E. destruct_world w. exec. subst. destruct f as [t c h hv j jv].
  handler_cases; evolves_computed.
Qed.

(** The owner of a subscription is the live chain. *)
Lemma hover_owner_gesture w s g :
  hover_owner w s = GestureNotifier g ∨ hover_owner w s = GestureTooltip g →
  gestureInner w = Some g.
Proof.
  unfold hover_owner.
  destruct (gestureInner w) as [g'|], (fixedInner w) as [f|];
    repeat case_match; intros [?|?]; congruence.
Qed.

Lemma hover_owner_fixed w s f :
  hover_owner w s = FixedHover f → fixedInner w = Some f.
Proof.
  unfold hover_owner.
  destruct (gestureInner w) as [g'|], (fixedInner w) as [f'|];
    repeat case_match; congruence.
Qed.

Lemma jump_owner_fixed w s f :
  jump_owner w s = FixedJump f → fixedInner w = Some f.
Proof.
  unfold jump_owner. destruct (fixedInner w) as [f'|];
    repeat case_match; congruence.
Qed.

Lemma evolving_on_event e : evolving (on_event e).
Proof.
  destruct e; cbn [on_event].
  - unfold on_mouse. evolving_auto.
  - unfold on_debounce, gesture_event, gesture_tap, add_annotated.
    evolving_auto.
  - intros w. unfold on_loading, mbind, M_bind, gets. cbn.
    destruct (gestureInner w) as [g|] eqn:E; [|apply evolves_refl].
    destruct (g_interval g); [|apply evolves_refl].
    by apply evolving_gesture_interval_tick.
  - intros w. unfold mbind, M_bind, gets. cbn.
    destruct (hover_owner w s) eqn:E; try apply evolves_refl.
    + apply evolving_gesture_notifier_next. eapply hover_owner_gesture; eauto.
    + apply evolving_gesture_tooltip_next. eapply hover_owner_gesture; eauto.
    + apply evolving_fixed_hover_next. eapply hover_owner_fixed; eauto.
  - intros w. unfold mbind, M_bind, gets. cbn.
    destruct (hover_owner w s) eqn:E; try apply evolves_refl.
    + apply evolving_gesture_error. eapply hover_owner_gesture; eauto.
    + apply evolving_gesture_error. eapply hover_owner_gesture; eauto.
    + apply evolving_fixed_error. eapply hover_owner_fixed; eauto.
  - intros w. unfold mbind, M_bind, gets. cbn.
    destruct (jump_owner w s) eqn:E; try apply evolves_refl.
    apply evolving_fixed_jump_next. eapply jump_owner_fixed; eauto.
  - intros w. unfold mbind, M_bind, gets. cbn.
    destruct (jump_owner w s) eqn:E; try apply evolves_refl.
    apply evolving_fixed_jump_next. eapply jump_owner_fixed; eauto.
  - unfold on_mouseout, remove_selection_highlight. evolving_auto.
  - unfold on_keydown, handleDismiss. evolving_auto.
  - unfold handleGoToDefinition. evolving_auto.
  - unfold handleFindReferences. evolving_auto.
  - unfold handleDismiss. evolving_auto.
  - unfold setElement_null. evolving_auto.
  - unfold componentWillUnmount. evolving_auto.
Qed.

Lemma evolves_step w e : evolves w (step w e).
Proof. apply evolving_on_event. Qed.


Lemma pipes_ok_mounted p d : pipes_ok (mounted p d).
Proof. destruct d. exec. by split_and!. Qed.

Lemma pipes_ok_reachable w : reachable w → pipes_ok w.
Proof.
  apply reachable_invariant; [apply pipes_ok_mounted|].
  intros w' e. apply evolves_step.
Qed.

(** *** Subscriptions that are live no more *)





(** *** What a step is, by the owner of the subscription *)

Lemma step_hover_next w s data :
  step w (HoverNext s data) =
    match hover_owner w s with
    | GestureNotifier g => (gesture_notifier_next g data w).2
    | GestureTooltip g => (gesture_tooltip_next g data w).2
    | FixedHover f => (fixed_hover_next f data w).2
    | _ => w
    end.
Proof.
  unfold step, on_event, mbind, M_bind, gets. cbn.
  by destruct (hover_owner w s).
Qed.

Lemma step_jump_next w s url :
  step w (JumpNext s url) =
    match jump_owner w s with
    | FixedJump f =>
        (fixed_jump_next f
           (match url with Some u => Some (Url u) | None => None end) w).2
    | _ => w
    end.
Proof.
  unfold step, on_event, mbind, M_bind, gets. cbn.
  by destruct (jump_owner w s).
Qed.


Lemma gesture_tap_frame tgt w :
  same_pipes w (gesture_tap tgt w).2 ∧
  props (gesture_tap tgt w).2 = props w ∧
  same_docking w (gesture_tap tgt w).2.
Proof.
  destruct_world w. unfold gesture_tap. destruct (td tgt) as [cell|]; exec.
  - destruct (negb (bool_decide (cell ∈ annotated_))); exec; by split_and!.
  - by split_and!.
Qed.

Lemma step_debounce w :
  step w DebounceElapsed =
    match debounce w with
    | Some (ty, tgt) =>
        let w0 := (gesture_tap tgt (set_debounce None w).2).2 in
        match has_part (loc tgt) with
        | Some l =>
            (gesture_switchMap ty (elem tgt) (gesture_ctx (props w) l) w0).2
        | None => w0
        end
    | None => w
    end.
Proof.
  unfold step, on_event, on_debounce, gesture_event.
  unfold mbind at 1, M_bind at 1, gets. cbn [fst snd].
  destruct (debounce w) as [[ty tgt]|]; [|done]. cbv zeta.
  unfold mbind at 1, M_bind at 1.
  destruct (set_debounce None w) as [u w1] eqn:E1.
  unfold mbind at 1, M_bind at 1. cbn [snd].
  pose proof (gesture_tap_frame tgt w1) as (_ & P & _).
  destruct (gesture_tap tgt w1) as [u' w0] eqn:E0. cbn [snd] in *.
  assert (props w1 = props w) as P1.
  { destruct_world w. exec. by inversion E1. }
  destruct (has_part (loc tgt)) as [l|]; [|done].
  unfold mbind, M_bind, gets. cbn. by rewrite P, P1.
Qed.

(** *** The claims *)

(** C6.  In every state the component reaches, at most one tooltip is
    active: a docked one, or else the one on display (loading or
    transient).  When the hover lookup of a docking chain answers with
    contents, whatever was docked before, the answer's tooltip is the one
    docked tooltip afterwards, and its target is the only element with the
    sticky class: the class was taken off the previously docked target
    before it was put on the new one. *)
Theorem at_most_one_tooltip w :
  reachable w →
  length (active_tooltips w) ≤ 1 ∧
  ∀ s f data,
    hover_owner w s = FixedHover f →
    no_contents (hover_contents data) = false →
    f_jumpValue f = None →
    let w' := step w (HoverNext s data) in
    let docked :=
      {| target := f_target f; ctx := f_ctx f;
         contents := hover_contents data; loading := false;
         defUrlOrError := None |} in
    active_tooltips w' = [Docked docked] ∧
    selection_highlight_sticky (dom w') = {[f_target f]} ∧
    ∀ dA, state_fixedTooltip w = Some dA → target dA ≠ f_target f →
          target dA ∉ selection_highlight_sticky (dom w').
Proof.
  intros R. split.
  - destruct (docked_reachable w R) as [_ D]. unfold active_tooltips.
    destruct (state_fixedTooltip w) as [d|].
    + by rewrite D.
    + destruct (shown (dom w)) as [[d [|]]|]; cbn; try lia.
  - intros s f data O C J. cbv zeta. rewrite step_hover_next, O. clear O R.
    destruct_world w. destruct f as [t c h hv j jv]. cbn in J. subst jv.
    unfold fixed_hover_next. exec. unfold no_contents in C.
    destruct (hover_contents data) as [[|x l]|] eqn:E; try done.
    cbn. exec. cbn. split_and!.
    + done.
    + apply union_empty_r_L.
    + intros dA _ Hne. rewrite union_empty_r_L. by apply not_elem_of_singleton.
Qed.

Lemma at_most_one_tooltip_witness :
  let w := run Example.docked_A Example.click_B in
  state_fixedTooltip w = Some Example.tooltipA ∧
  length (active_tooltips w) ≤ 1 ∧
  active_tooltips (step w (HoverNext 14%nat Example.hoverB)) =
    [Docked Example.tooltipB] ∧
  selection_highlight_sticky (dom (step w (HoverNext 14%nat Example.hoverB))) =
    {[20%nat]}.
Proof.
  cbv zeta. split; [reflexivity|].
  destruct (at_most_one_tooltip (run Example.docked_A Example.click_B))
    as (H0 & H).
  - exists Example.the_props, Example.empty_dom,
      (Example.click_A ++ [HoverNext 6%nat Example.hoverA] ++ Example.click_B).
    reflexivity.
  - split; [exact H0|].
    destruct (H 14%nat Example.chain_B Example.hoverB) as (H1 & H2 & _).
    + vm_compute. reflexivity.
    + reflexivity.
    + reflexivity.
    + split; [exact H1|exact H2].
Defined.

(** C8.  While the component is mounted, the Escape key clears the docked
    tooltip, whatever else the state is: afterwards nothing is docked,
    no tooltip is on display, and no element carries the highlight or the
    sticky highlight class.  The dismiss action does the same. *)
Theorem escape_and_dismiss_clear w :
  subscriptions w = true →
  idle (step w (KeyDown "Escape")) ∧ idle (step w ActionDismiss).
Proof.
  intros S. destruct_world w. exec. subst. split; exec; by split_and!.
Qed.

Lemma escape_and_dismiss_clear_witness :
  state_fixedTooltip Example.docked_A = Some Example.tooltipA ∧
  idle (step Example.docked_A (KeyDown "Escape")) ∧
  idle (step Example.docked_A ActionDismiss).
Proof.
  split; [reflexivity|].
  apply (escape_and_dismiss_clear Example.docked_A). reflexivity.
Defined.

(** C9.  Go-to-definition and find-references log their click and then
    look at the modifier keys of the event.  With shift, ctrl, alt or meta
    held they do nothing more: no [preventDefault], no [history.push], the
    docked tooltip and the document as before.  Without a modifier they
    prevent the default and push the destination onto the history;
    go-to-definition also takes the tooltip down. *)
Theorem navigation_is_modifier_gated w defCtx c e :
  let modifier := shiftKey e || ctrlKey e || altKey e || metaKey e in
  let wd := step w (ActionDefinition defCtx e) in
  let wr := step w (ActionReferences c e) in
  trace wd =
    trace w ++
    E_eventLogger_log "GoToDefClicked" None ::
    (if modifier then []
     else [E_preventDefault; E_hideTooltip; E_hideTooltip;
           E_history_push (AbsoluteBlobURL defCtx)]) ∧
  trace wr =
    trace w ++
    E_eventLogger_log "FindRefsClicked" None ::
    (if modifier then []
     else [E_preventDefault;
           E_history_push (PrettyBlobURL c "references")]) ∧
  (if modifier
   then state_fixedTooltip wd = state_fixedTooltip w ∧ dom wd = dom w
   else idle wd) ∧
  state_fixedTooltip wr = state_fixedTooltip w ∧ dom wr = dom w.
Proof.
  cbv zeta. destruct_world w. exec. unfold any_modifier.
  destruct (shiftKey e || ctrlKey e || altKey e || metaKey e); exec;
    rewrite <- ?app_assoc; by split_and!.
Qed.













(** *** Observables nobody subscribed to *)

Lemma subscribers_snoc o tr e :
  subscribers o (tr ++ [e]) = subscribers o tr ++ subscribers o [e].
Proof. unfold subscribers. by rewrite omap_app. Qed.

Lemma subscribers_other o o' s : o ≠ o' → subscribers o [E_subscribe o' s] = [].
Proof.
  intros H. unfold subscribers. cbn.
  destruct (Nat.eqb_spec o' o); [congruence|done].
Qed.

Lemma unsub_emit o e : not_subscribe e → preserves (unsubscribed o) (emit e).
Proof.
  intros N w [B U]. destruct_world w. split; exec; [done|].
  rewrite subscribers_snoc, U. by destruct e.
Qed.

Lemma unsub_new_id o : preserves (unsubscribed o) new_id.
Proof. intros w [B U]. destruct_world w. split; exec; [lia|done]. Qed.

Ltac unsub_untouched :=
  intros w [B U]; destruct_world w; split; exec; done.

Lemma unsub_set_state o d : preserves (unsubscribed o) (set_state d).
Proof. unsub_untouched. Qed.
Lemma unsub_set_dom o f : preserves (unsubscribed o) (set_dom f).
Proof. unsub_untouched. Qed.
Lemma unsub_set_open o r s : preserves (unsubscribed o) (set_open r s).
Proof. unsub_untouched. Qed.
Lemma unsub_set_debounce o d : preserves (unsubscribed o) (set_debounce d).
Proof. unsub_untouched. Qed.
Lemma unsub_set_gestureInner o g :
  preserves (unsubscribed o) (set_gestureInner g).
Proof. unsub_untouched. Qed.
Lemma unsub_set_fixedInner o f :
  preserves (unsubscribed o) (set_fixedInner f).
Proof. unsub_untouched. Qed.

(** The chains subscribe to the observables they have just created. *)
Lemma unsub_gesture_switchMap o ty t c :
  preserves (unsubscribed o) (gesture_switchMap ty t c).
Proof.
  intros w [B U]. destruct_world w. split; exec; [lia|].
  rewrite !subscribers_snoc, U. cbn [app].
  rewrite !subscribers_other by lia. done.
Qed.

Lemma unsub_start_fixed o d :
  preserves (unsubscribed o) (fixed_switchMap (Some d)).
Proof.
  intros w [B U]. destruct_world w. split; exec; [lia|].
  rewrite !subscribers_snoc, U. cbn [app].
  rewrite !subscribers_other by lia. done.
Qed.

Create HintDb unsub.
#[local] Hint Resolve unsub_new_id unsub_set_state unsub_set_dom
  unsub_set_open unsub_set_debounce unsub_set_gestureInner
  unsub_set_fixedInner unsub_gesture_switchMap unsub_start_fixed
  preserves_ret preserves_skip preserves_gets : unsub.
#[local] Hint Extern 1 (preserves (unsubscribed _) (emit _)) =>
  apply unsub_emit; exact I : unsub.

Ltac unfold_callbacks :=
  unfold on_event, on_mouse, on_debounce, on_loading, on_mouseout,
    on_keydown, setElement_null, componentWillUnmount, gesture_event, gesture_tap, gesture_notifier_next,
    gesture_tooltip_next, gesture_interval_tick, gesture_error,
    gesture_subscriber, fixed_hover_next, fixed_jump_next, fixed_error,
    fixed_tap, fixed_subscriber, fixedTooltip_next, dock_or_clear,
    handleGoToDefinition, handleFindReferences, handleDismiss,
    setFixedTooltip, getTooltip_next, updateTooltip, hideTooltip,
    remove_selection_highlight, remove_selection_highlight_sticky,
    add_selection_highlight, add_selection_highlight_sticky,
    set_cursor_pointer, add_annotated, set_shown.

Lemma unsub_on_event o e : preserves (unsubscribed o) (on_event e).
Proof.
  destruct e; unfold_callbacks; cbv zeta.
  all: preserves_auto unsub.
Qed.

Lemma unsub_run o w es : unsubscribed o w → unsubscribed o (run w es).
Proof.
  revert w. induction es as [|e es IH]; intros w H; [done|].
  apply IH, unsub_on_event, H.
Qed.

(** No subscription is made to an observable before it exists. *)
Lemma fresh_emit e : not_subscribe e → preserves trace_fresh (emit e).
Proof.
  intros N w H o. specialize (H o). destruct_world w. exec. intros Ho.
  rewrite subscribers_snoc, (H Ho). by destruct e.
Qed.

Lemma fresh_new_id : preserves trace_fresh new_id.
Proof.
  intros w H o. specialize (H o). destruct_world w. exec. intros Ho.
  apply H. lia.
Qed.

Ltac fresh_untouched :=
  intros w H o; specialize (H o); destruct_world w; exec; exact H.

Lemma fresh_set_state d : preserves trace_fresh (set_state d).
Proof. fresh_untouched. Qed.
Lemma fresh_set_dom f : preserves trace_fresh (set_dom f).
Proof. fresh_untouched. Qed.
Lemma fresh_set_open r s : preserves trace_fresh (set_open r s).
Proof. fresh_untouched. Qed.
Lemma fresh_set_debounce d : preserves trace_fresh (set_debounce d).
Proof. fresh_untouched. Qed.
Lemma fresh_set_gestureInner g : preserves trace_fresh (set_gestureInner g).
Proof. fresh_untouched. Qed.
Lemma fresh_set_fixedInner f : preserves trace_fresh (set_fixedInner f).
Proof. fresh_untouched. Qed.

Lemma fresh_gesture_switchMap ty t c :
  preserves trace_fresh (gesture_switchMap ty t c).
Proof.
  intros w H o. specialize (H o). destruct_world w. exec. intros Ho.
  rewrite !subscribers_snoc, H by lia. cbn [app].
  rewrite !subscribers_other by lia. done.
Qed.

Lemma fresh_start_fixed d : preserves trace_fresh (fixed_switchMap (Some d)).
Proof.
  intros w H o. specialize (H o). destruct_world w. exec. intros Ho.
  rewrite !subscribers_snoc, H by lia. cbn [app].
  rewrite !subscribers_other by lia. done.
Qed.

Create HintDb newobs.
#[local] Hint Resolve fresh_new_id fresh_set_state fresh_set_dom
  fresh_set_open fresh_set_debounce fresh_set_gestureInner
  fresh_set_fixedInner fresh_gesture_switchMap fresh_start_fixed
  preserves_ret preserves_skip preserves_gets : newobs.
#[local] Hint Extern 1 (preserves trace_fresh (emit _)) =>
  apply fresh_emit; exact I : newobs.

Lemma fresh_on_event e : preserves trace_fresh (on_event e).
Proof.
  destruct e; unfold_callbacks; cbv zeta.
  all: preserves_auto newobs.
Qed.

Lemma trace_fresh_reachable w : reachable w → trace_fresh w.
Proof.
  apply reachable_invariant; [|intros w' e; apply fresh_on_event].
  intros p d o _. by destruct d.
Qed.

(** *** The owner of a new subscription *)

Lemma hover_owner_new w w1 f s :
  pipes_ok w → gestureInner w1 = gestureInner w → fresh w ≤ s →
  fixedInner w1 = Some f → f_hover f = Some s →
  hover_owner w1 s = FixedHover f.
Proof.
  intros (Bg & _) G F X H. unfold hover_owner. rewrite G, X.
  assert (is_sub (f_hover f) s = true) as ->
    by (unfold is_sub; by rewrite bool_decide_eq_true).
  destruct (gestureInner w) as [g|] eqn:E; [|done].
  specialize (Bg s). unfold gesture_live in Bg. rewrite E in Bg.
  destruct (is_sub (g_notifier g) s); [cbn in Bg; lia|].
  destruct (is_sub (g_tooltip g) s); [cbn in Bg; lia|]. done.
Qed.

Lemma jump_owner_new w f s :
  fixedInner w = Some f → f_jump f = Some s →
  jump_owner w s = FixedJump f.
Proof.
  intros X J. unfold jump_owner, is_sub. rewrite X, J.
  by rewrite bool_decide_eq_true_2.
Qed.

Lemma count_TooltipDocked_app tr tr' :
  count_TooltipDocked (tr ++ tr') =
    count_TooltipDocked tr + count_TooltipDocked tr'.
Proof.
  unfold count_TooltipDocked. by rewrite List.filter_app, length_app.
Qed.

(** The world right after a docking request, and what the answers of its
    two lookups do to it when the hover lookup has contents. *)
Lemma docking_request w data :
  subscriptions w = true →
  let n := fresh w in
  let w1 := (fixedTooltip_next data w).2 in
  let f := {| f_target := target data; f_ctx := ctx data;
              f_hover := Some (n + 2); f_hoverValue := None;
              f_jump := Some (n + 3); f_jumpValue := None |} in
  trace w1 =
    trace w ++
    [E_getHover n (ctx data); E_getJumpURL (S n) (ctx data);
     E_subscribe n (n + 2); E_subscribe (S n) (n + 3)] ∧
  fixedInner w1 = Some f ∧ gestureInner w1 = gestureInner w.
Proof.
  intros Sub. cbv zeta.
  replace (fresh w + 2) with (S (S (fresh w))) by lia.
  replace (fresh w + 3) with (S (S (S (fresh w)))) by lia.
  destruct_world w. exec. subst. exec.
  rewrite <- !app_assoc. by split_and!.
Qed.

Lemma docking_answers w data h r :
  pipes_ok w →
  subscriptions w = true →
  no_contents (hover_contents h) = false →
  let n := fresh w in
  let w1 := (fixedTooltip_next data w).2 in
  let tooltip :=
    {| target := target data; ctx := ctx data;
       contents := hover_contents h; loading := false;
       defUrlOrError := None |} in
  let url := match r with Some u => Some (Url u) | None => None end in
  let log d :=
    match defUrlOrError d with
    | None => E_eventLogger_log "TooltipDocked" (Some false)
    | Some _ => E_eventLogger_log "TooltipDockedWithDefinition" (Some true)
    end in
  let w2 := step w1 (HoverNext (n + 2) h) in
  let w3 := step w2 (JumpNext (n + 3) r) in
  let w2' := step w1 (JumpNext (n + 3) r) in
  let w3' := step w2' (HoverNext (n + 2) h) in
  trace w2 = trace w1 ++ [log tooltip; E_updateTooltip tooltip true] ∧
  state_fixedTooltip w2 = Some tooltip ∧
  trace w3 =
    trace w2 ++
    [log (with_definition tooltip url);
     E_updateTooltip (with_definition tooltip url) true] ∧
  state_fixedTooltip w3 = Some (with_definition tooltip url) ∧
  trace w2' = trace w1 ∧
  trace w3' =
    trace w1 ++
    [log tooltip; E_updateTooltip tooltip true;
     log (with_definition tooltip url);
     E_updateTooltip (with_definition tooltip url) true] ∧
  state_fixedTooltip w3' = Some (with_definition tooltip url).
Proof.
  intros Ok Sub C. cbv zeta.
  destruct (docking_request w data Sub) as (_ & X & G). cbv zeta in X, G.
  assert (∀ w' f', gestureInner w' = gestureInner w →
            fixedInner w' = Some f' → f_hover f' = Some (fresh w + 2) →
            hover_owner w' (fresh w + 2) = FixedHover f') as Hover.
  { intros w' f' G' X' H'. apply (hover_owner_new w w' f'); auto. lia. }
  rewrite (step_hover_next (fixedTooltip_next data w).2).
  rewrite (Hover _ _ G X eq_refl).
  rewrite (step_jump_next (fixedTooltip_next data w).2).
  rewrite (jump_owner_new _ _ _ X eq_refl).
  revert Hover. clear X G Ok.
  replace (fresh w + 2) with (S (S (fresh w))) by lia.
  replace (fresh w + 3) with (S (S (S (fresh w)))) by lia.
  unfold no_contents in C.
  destruct (hover_contents h) as [[|x l]|] eqn:E; try done. clear C.
  destruct_world w. cbn [fresh subscriptions] in *. subst. intros Hover.
  cbn [gestureInner] in Hover.
  unfold fixed_hover_next, fixed_jump_next, getTooltip_next.
  rewrite E.
  match goal with
  | |- context [step ?w1 (JumpNext ?s r)] =>
      rewrite (step_jump_next w1 s);
      rewrite (jump_owner_new w1
                 {| f_target := target data; f_ctx := ctx data;
                    f_hover := None;
                    f_hoverValue :=
                      Some {| target := target data; ctx := ctx data;
                              contents := Some (x :: l); loading := false;
                              defUrlOrError := None |};
                    f_jump := Some s; f_jumpValue := None |} s)
        by reflexivity
  end.
  match goal with
  | |- context [step ?w1 (HoverNext ?s h)] =>
      rewrite (step_hover_next w1 s);
      rewrite (Hover w1
                 {| f_target := target data; f_ctx := ctx data;
                    f_hover := Some s; f_hoverValue := None;
                    f_jump := None;
                    f_jumpValue :=
                      Some (match r with
                            | Some u => Some (Url u)
                            | None => None
                            end) |})
        by reflexivity
  end.
  clear Hover.
  unfold fixed_hover_next, fixed_jump_next, getTooltip_next.
  rewrite E. exec. cbn [isEmptyHover negb no_contents].
  exec.
  destruct r as [u|]; cbn [or_undefined]; [destruct (String.eqb u EmptyString)|];
    exec; rewrite <- ?app_assoc; by split_and!.
Qed.

(** C3, as the code has it.  A gesture calls the definition lookup next to
    the hover lookup, but subscribes to the hover observable only (twice):
    the definition observable it got is never subscribed to, whatever
    happens later, so no result of it reaches a tooltip.  A docking request
    calls both lookups again and subscribes to both new observables; the
    definition target of the docked tooltip is what this second definition
    lookup answers ([undefined] for [null] and for the empty string). *)
Theorem definition_looked_up_again_when_docking w :
  reachable w →
  let n := fresh w in
  (∀ ty t c,
     let wg := (gesture_switchMap ty t c w).2 in
     trace wg =
       trace w ++
       [E_getHover n c; E_getJumpURL (S n) c;
        E_subscribe n (n + 2); E_subscribe n (n + 3)] ∧
     ∀ es, subscribers (S n) (trace (run wg es)) = []) ∧
  (∀ data,
     subscriptions w = true →
     let wd := (fixedTooltip_next data w).2 in
     trace wd =
       trace w ++
       [E_getHover n (ctx data); E_getJumpURL (S n) (ctx data);
        E_subscribe n (n + 2); E_subscribe (S n) (n + 3)] ∧
     ∀ h url,
       no_contents (hover_contents h) = false →
       state_fixedTooltip
         (run wd [HoverNext (n + 2) h; JumpNext (n + 3) url]) =
         Some {| target := target data; ctx := ctx data;
                 contents := hover_contents h; loading := false;
                 defUrlOrError :=
                   or_undefined
                     (match url with
                      | Some u => Some (Url u)
                      | None => None
                      end) |}).
Proof.
  intros R. cbv zeta.
  pose proof (trace_fresh_reachable w R) as Fr.
  pose proof (pipes_ok_reachable w R) as Ok.
  split.
  - intros ty t c.
    assert (trace (gesture_switchMap ty t c w).2 =
              trace w ++
              [E_getHover (fresh w) c; E_getJumpURL (S (fresh w)) c;
               E_subscribe (fresh w) (fresh w + 2);
               E_subscribe (fresh w) (fresh w + 3)] ∧
            fresh (gesture_switchMap ty t c w).2 = fresh w + 4) as [Tg Fg].
    { replace (fresh w + 2) with (S (S (fresh w))) by lia.
      replace (fresh w + 3) with (S (S (S (fresh w)))) by lia.
      replace (fresh w + 4) with (S (S (S (S (fresh w))))) by lia.
      destruct_world w. exec. rewrite <- !app_assoc. by split. }
    split; [exact Tg|].
    intros es. apply unsub_run. split; [lia|].
    rewrite Tg. unfold subscribers. rewrite omap_app.
    fold (subscribers (S (fresh w)) (trace w)).
    rewrite (Fr (S (fresh w))) by lia.
    cbn. destruct (Nat.eqb_spec (fresh w) (S (fresh w))); [lia|done].
  - intros data Sub. split; [apply (docking_request w data Sub)|].
    intros h url C.
    destruct (docking_answers w data h url Ok Sub C)
      as (_ & _ & _ & H & _). exact H.
Qed.

Lemma definition_looked_up_again_when_docking_witness :
  subscribers 1%nat
    (trace (run (gesture_switchMap mouseover 10%nat Example.ctxA
                   Example.start).2
              [HoverNext 2%nat Example.hoverA;
               HoverNext 3%nat Example.hoverA])) = [] ∧
  state_fixedTooltip
    (run (fixedTooltip_next Example.tooltipA Example.start).2
       [HoverNext 2%nat Example.hoverA; JumpNext 3%nat (Some "/def")]) =
    Some (with_definition Example.tooltipA (Some (Url "/def"))).
Proof.
  destruct (definition_looked_up_again_when_docking Example.start)
    as [Hg Hd]; [by exists Example.the_props, Example.empty_dom, []|].
  split.
  - destruct (Hg mouseover 10%nat Example.ctxA) as [_ H]. apply H.
  - destruct (Hd Example.tooltipA) as [_ H]; [reflexivity|].
    apply (H Example.hoverA (Some "/def")). reflexivity.
Defined.

(** C3, as stated, fails.  Hover over A, then click on A: the definition
    lookup is called by the hover gesture (observable 1), by the click
    gesture (observable 5) and once more by the docking (observable 9).
    Only the last one is subscribed to, and its answer is the definition
    target of the docked tooltip. *)
Lemma prefetched_definition_counterexample :
  let w := run Example.start Example.hover_then_click_A in
  jump_observables (trace w) = [1; 5; 9] ∧
  subscribers 1 (trace w) = [] ∧
  subscribers 5 (trace w) = [] ∧
  subscribers 9 (trace w) = [11] ∧
  state_fixedTooltip w = Some Example.tooltipA ∧
  state_fixedTooltip (step w (JumpNext 11 (Some "/def"))) =
    Some (with_definition Example.tooltipA (Some (Url "/def"))).
Proof. cbv zeta. split_and!; reflexivity. Qed.

(** C4, as the code has it.  Every call of [setFixedTooltip] with a tooltip
    logs exactly one docked event: ["TooltipDocked"] without definition
    when the tooltip has no definition attached,
    ["TooltipDockedWithDefinition"] when it has.  A docking request itself
    logs none.  A docking whose hover lookup has contents makes two such
    calls.  The first, when the hover lookup answers, logs
    ["TooltipDocked"], since no definition is attached at that point.  The
    second, when both lookups have answered, logs ["TooltipDocked"] again
    when the definition lookup answered without a target ([null] or the
    empty string), and ["TooltipDockedWithDefinition"] when it answered
    with a target.  The two events are the same, in the same order,
    whichever lookup answers first; without a target that is two
    ["TooltipDocked"] events for one docking. *)
Theorem docked_event_logged_at_each_update w data h :
  reachable w →
  subscriptions w = true →
  no_contents (hover_contents h) = false →
  let n := fresh w in
  let w1 := (fixedTooltip_next data w).2 in
  let docked := E_eventLogger_log "TooltipDocked" (Some false) in
  let docked_with :=
    E_eventLogger_log "TooltipDockedWithDefinition" (Some true) in
  let tooltip :=
    {| target := target data; ctx := ctx data;
       contents := hover_contents h; loading := false;
       defUrlOrError := None |} in
  let final r :=
    {| target := target data; ctx := ctx data;
       contents := hover_contents h; loading := false;
       defUrlOrError :=
         match r with
         | Some u => if String.eqb u EmptyString then None else Some (Url u)
         | None => None
         end |} in
  let second r :=
    match r with
    | Some u => if String.eqb u EmptyString then docked else docked_with
    | None => docked
    end in
  let logged w' := count_TooltipDocked (trace w') in
  (∀ w' d,
     trace (setFixedTooltip (Some d) w').2 =
       trace w' ++
       [match defUrlOrError d with
        | None => docked
        | Some _ => docked_with
        end]) ∧
  trace w1 =
    trace w ++
    [E_getHover n (ctx data); E_getJumpURL (S n) (ctx data);
     E_subscribe n (n + 2); E_subscribe (S n) (n + 3)] ∧
  trace (step w1 (HoverNext (n + 2) h)) =
    trace w1 ++ [docked; E_updateTooltip tooltip true] ∧
  (∀ r, trace (step w1 (JumpNext (n + 3) r)) = trace w1) ∧
  (∀ r,
     trace (run w1 [HoverNext (n + 2) h; JumpNext (n + 3) r]) =
       trace w1 ++
       [docked; E_updateTooltip tooltip true;
        second r; E_updateTooltip (final r) true]) ∧
  (∀ r,
     trace (run w1 [JumpNext (n + 3) r; HoverNext (n + 2) h]) =
       trace w1 ++
       [docked; E_updateTooltip tooltip true;
        second r; E_updateTooltip (final r) true]) ∧
  logged w1 = logged w ∧
  logged (step w1 (HoverNext (n + 2) h)) = logged w + 1 ∧
  logged (run w1 [HoverNext (n + 2) h; JumpNext (n + 3) None]) =
    logged w + 2 ∧
  logged (run w1 [JumpNext (n + 3) None; HoverNext (n + 2) h]) =
    logged w + 2 ∧
  ∀ u, String.eqb u EmptyString = false →
    logged (run w1 [HoverNext (n + 2) h; JumpNext (n + 3) (Some u)]) =
      logged w + 1.
Proof.
  intros R Sub C. cbv zeta.
  pose proof (pipes_ok_reachable w R) as Ok.
  destruct (docking_request w data Sub) as (T1 & _). cbv zeta in T1.
  assert (∀ r,
            trace (step (fixedTooltip_next data w).2
                     (JumpNext (fresh w + 3) r)) =
              trace (fixedTooltip_next data w).2 ∧
            trace (run (fixedTooltip_next data w).2
                     [HoverNext (fresh w + 2) h; JumpNext (fresh w + 3) r]) =
              trace (fixedTooltip_next data w).2 ++
              [E_eventLogger_log "TooltipDocked" (Some false);
               E_updateTooltip
                 {| target := target data; ctx := ctx data;
                    contents := hover_contents h; loading := false;
                    defUrlOrError := None |} true;
               match r with
               | Some u =>
                   if String.eqb u EmptyString
                   then E_eventLogger_log "TooltipDocked" (Some false)
                   else E_eventLogger_log "TooltipDockedWithDefinition"
                          (Some true)
               | None => E_eventLogger_log "TooltipDocked" (Some false)
               end;
               E_updateTooltip
                 {| target := target data; ctx := ctx data;
                    contents := hover_contents h; loading := false;
                    defUrlOrError :=
                      match r with
                      | Some u =>
                          if String.eqb u EmptyString then None
                          else Some (Url u)
                      | None => None
                      end |} true] ∧
            trace (run (fixedTooltip_next data w).2
                     [JumpNext (fresh w + 3) r; HoverNext (fresh w + 2) h]) =
              trace (run (fixedTooltip_next data w).2
                       [HoverNext (fresh w + 2) h; JumpNext (fresh w + 3) r]))
    as Both.
  { intros r.
    destruct (docking_answers w data h r Ok Sub C)
      as (A2 & _ & A3 & _ & A2' & A3' & _). cbv zeta in A2, A3, A2', A3'.
    cbn [run fold_left]. rewrite A3', A3, A2, <- app_assoc. cbn [app].
    split_and!; [exact A2'| |reflexivity].
    unfold with_definition, or_undefined. cbn.
    destruct r as [u|]; [|reflexivity].
    by destruct (String.eqb u EmptyString). }
  destruct (docking_answers w data h None Ok Sub C) as (T2 & _).
  cbv zeta in T2. cbn [defUrlOrError] in T2.
  split_and!.
  - intros w' d. destruct_world w'. destruct d as [t c cs l [du|]]; by exec.
  - exact T1.
  - exact T2.
  - intros r. apply (Both r).
  - intros r. apply (Both r).
  - intros r. destruct (Both r) as (_ & B & ->). exact B.
  - rewrite T1, count_TooltipDocked_app. cbn. lia.
  - rewrite T2, T1, !count_TooltipDocked_app. cbn. lia.
  - rewrite (proj1 (proj2 (Both None))), T1, !count_TooltipDocked_app.
    cbn. lia.
  - destruct (Both None) as (_ & B & ->).
    rewrite B, T1, !count_TooltipDocked_app. cbn. lia.
  - intros u U. rewrite (proj1 (proj2 (Both (Some u)))), U, T1,
      !count_TooltipDocked_app. cbn. lia.
Qed.

Lemma docked_event_logged_at_each_update_witness :
  let w1 := (fixedTooltip_next Example.tooltipA Example.start).2 in
  trace (run w1 [HoverNext 2%nat Example.hoverA;
                 JumpNext 3%nat (Some "/mux.go#L3")]) =
    trace w1 ++
    [E_eventLogger_log "TooltipDocked" (Some false);
     E_updateTooltip Example.tooltipA true;
     E_eventLogger_log "TooltipDockedWithDefinition" (Some true);
     E_updateTooltip
       (with_definition Example.tooltipA (Some (Url "/mux.go#L3"))) true] ∧
  count_TooltipDocked
    (trace (run w1 [HoverNext 2%nat Example.hoverA; JumpNext 3%nat None])) =
    2.
Proof.
  cbv zeta.
  destruct (docked_event_logged_at_each_update Example.start
              Example.tooltipA Example.hoverA)
    as (_ & _ & _ & _ & H & _ & _ & _ & H' & _).
  - by exists Example.the_props, Example.empty_dom, [].
  - reflexivity.
  - reflexivity.
  - split; [exact (H (Some "/mux.go#L3"))|exact H'].
Defined.

(** C4, as stated, fails.  One click on A, whose hover lookup has contents
    and whose definition lookup answers [null]: the docking logs
    ["TooltipDocked"] twice. *)
Lemma docked_logged_twice_counterexample :
  let w := run Example.start
             (Example.click_A ++
              [HoverNext 6%nat Example.hoverA; JumpNext 7%nat None]) in
  state_fixedTooltip w = Some Example.tooltipA ∧
  defUrlOrError Example.tooltipA = None ∧
  count_TooltipDocked (trace w) = 2 ∧
  count_TooltipDocked (trace w) ≠ 1.
Proof. cbv zeta. split_and!; [reflexivity..|]. vm_compute. lia. Qed.

(** ** More of the pipelines *)

(** *** Unmounting and releasing the table *)

Lemma released_step w e : released w → is_action e = false → step w e = w.
Proof.
  intros ((R & D & G) & S & F) A. destruct_world w. cbn in R, D, G, S, F.
  subst. destruct e; try done; exec; unfold hover_owner, jump_owner; exec;
    done.
Qed.

Lemma released_unmount w : released (step w Unmount).
Proof. destruct_world w. exec. by repeat split. Qed.

(** X8.  [componentWillUnmount] releases everything: after it, no event of
    the document, of a timer or of a lookup changes anything, whatever was
    pending when the component was unmounted. *)
Theorem unmount_releases_everything w es :
  Forall (λ e, is_action e = false) es →
  run (step w Unmount) es = step w Unmount.
Proof.
  intros H. pose proof (released_unmount w) as R.
  induction H as [|e es He _ IH]; [done|].
  cbn [run fold_left]. rewrite (released_step _ _ R He). exact IH.
Qed.

Lemma unmount_releases_everything_witness :
  run (step Example.docked_A Unmount)
    (Example.click_B ++ [JumpNext 7%nat None; MouseOut; KeyDown "Escape"]) =
  step Example.docked_A Unmount.
Proof.
  apply (unmount_releases_everything Example.docked_A).
  repeat constructor.
Defined.

Lemma hover_lookups_snoc tr e :
  hover_lookups (tr ++ [e]) =
  hover_lookups tr ++
  match e with E_getHover _ c => [c] | _ => [] end.
Proof. unfold hover_lookups. rewrite omap_app. by destruct e. Qed.

Lemma jump_lookups_snoc tr e :
  jump_lookups (tr ++ [e]) =
  jump_lookups tr ++
  match e with E_getJumpURL _ c => [c] | _ => [] end.
Proof. unfold jump_lookups. rewrite omap_app. by destruct e. Qed.

Lemma converted_snoc tr e :
  converted (tr ++ [e]) =
  converted tr ++ match e with E_convertNode c => [c] | _ => [] end.
Proof. unfold converted. rewrite omap_app. by destruct e. Qed.

(** Reads the lookups off a trace that was extended effect by effect. *)
Ltac read_trace :=
  rewrite ?hover_lookups_snoc, ?jump_lookups_snoc, ?converted_snoc;
  cbn [app]; rewrite ?app_nil_r.

Lemma gesture_off_step w e :
  gesture_off w →
  gesture_off (step w e) ∧ fresh (step w e) = fresh w ∧
  hover_lookups (trace (step w e)) = hover_lookups (trace w) ∧
  jump_lookups (trace (step w e)) = jump_lookups (trace w).
Proof.
  intros (R & D & G). destruct_world w. cbn in R, D, G. subst.
  destruct e; exec; unfold hover_owner, jump_owner, gesture_off; exec.
  all: repeat match goal with
       | |- context [match ?x with _ => _ end] => is_var x; destruct x
       | |- context [if ?x then _ else _] => destruct x eqn:?
       | |- context [match f_jumpValue ?f with _ => _ end] =>
           destruct f as [? ? ? ? ? []]
       | |- context [match f_hoverValue ?f with _ => _ end] =>
           destruct f as [? ? ? [] ? ?]
       | _ => progress exec
       end.
  all: exec; read_trace; by split_and!.
Qed.

(** X9.  [setElement(null)] unsubscribes the gesture pipeline only.  From
    then on no lookup is called and no subscription is made, whatever
    happens; the docking chain that was pending, the docked tooltip and the
    other listeners are as before. *)
Theorem released_table_starts_no_lookup w es :
  let w0 := step w SetElementNull in
  fixedInner w0 = fixedInner w ∧
  state_fixedTooltip w0 = state_fixedTooltip w ∧
  subscriptions w0 = subscriptions w ∧
  trace w0 = trace w ∧
  gestureInner (run w0 es) = None ∧
  fresh (run w0 es) = fresh w ∧
  hover_lookups (trace (run w0 es)) = hover_lookups (trace w) ∧
  jump_lookups (trace (run w0 es)) = jump_lookups (trace w).
Proof.
  cbv zeta.
  assert (gesture_off (step w SetElementNull)) as Off
    by (destruct_world w; exec; by split_and!).
  assert (fresh (step w SetElementNull) = fresh w ∧
          trace (step w SetElementNull) = trace w) as [<- <-]
    by (destruct_world w; by exec).
  split_and!; try (destruct_world w; by exec).
  all: revert Off; generalize (step w SetElementNull); intros w0 Off;
    revert w0 Off; induction es as [|e es IH]; intros w0 Off;
    [by try apply Off|];
    destruct (gesture_off_step w0 e Off) as (Off' & F & H & J);
    cbn [run fold_left]; fold (run (step w0 e) es);
    rewrite <- ?F, <- ?H, <- ?J; by apply IH.
Qed.

(** *** The debounce and the position filter *)

Lemma mouse_overwritten w ty tgt ty' tgt' :
  pushes_hash ty tgt = false →
  step (step w (Mouse ty tgt)) (Mouse ty' tgt') = step w (Mouse ty' tgt').
Proof.
  unfold pushes_hash, is_click. intros P. destruct_world w. exec.
  destruct ref_, subs_; exec; cbn [andb] in *; try done; rewrite P; by exec.
Qed.

(** X10.  [debounceTime(50)] holds back one event at a time: of the mouse
    events that follow one another without 50 ms in between, only the last
    one reaches the gesture pipeline.  (A click on a line number is let
    through by its own listener at once, so the earlier events are taken
    not to be such clicks.) *)
Theorem debounce_keeps_last_event w ms ty tgt :
  Forall (λ m, pushes_hash m.1 m.2 = false) ms →
  run w ((λ m, Mouse m.1 m.2) <$> (ms ++ [(ty, tgt)])) = step w (Mouse ty tgt).
Proof.
  intros H. revert w. induction H as [|[ty0 tgt0] ms P _ IH]; intros w.
  - done.
  - cbn [fmap list_fmap app run fold_left fst snd] in *.
    fold (run (step w (Mouse ty0 tgt0))
            ((λ m, Mouse m.1 m.2) <$> (ms ++ [(ty, tgt)]))).
    rewrite IH. by apply mouse_overwritten.
Qed.

Lemma debounce_keeps_last_event_witness :
  run Example.start
    [Mouse click Example.tgtA; Mouse mouseover Example.tgtB;
     Mouse mouseover Example.tgtA; DebounceElapsed] =
  run Example.start [Mouse mouseover Example.tgtA; DebounceElapsed].
Proof.
  change (step (run Example.start
                  ((λ m, Mouse m.1 m.2) <$>
                   ([(click, Example.tgtA); (mouseover, Example.tgtB)] ++
                    [(mouseover, Example.tgtA)]))) DebounceElapsed =
          step (step Example.start (Mouse mouseover Example.tgtA))
            DebounceElapsed).
  rewrite (debounce_keeps_last_event Example.start
             [(click, Example.tgtA); (mouseover, Example.tgtB)]
             mouseover Example.tgtA); [reflexivity|].
  repeat constructor.
Defined.

(** X11.  A gesture on a target that has no position on a side of the diff
    is dropped by the filter, after the tap: the tooltips are created and
    the cell is annotated, but no lookup is called, the chains are as they
    were, and the tooltip and the docked tooltip stay. *)
Theorem gesture_without_position_is_dropped w ty tgt :
  debounce w = Some (ty, tgt) →
  has_part (loc tgt) = None →
  let w' := step w DebounceElapsed in
  debounce w' = None ∧
  same_pipes w w' ∧ same_docking w w' ∧
  hover_lookups (trace w') = hover_lookups (trace w) ∧
  jump_lookups (trace w') = jump_lookups (trace w) ∧
  ∃ rest, trace w' = trace w ++ E_createTooltips :: rest.
Proof.
  intros D P. cbv zeta. rewrite step_debounce, D, P. cbv zeta.
  destruct_world w. unfold gesture_tap. destruct (td tgt) as [cell|]; exec.
  - destruct (negb (bool_decide (cell ∈ annotated_))); exec; read_trace;
      split_and!; try done; eexists; by rewrite <- ?app_assoc.
  - read_trace. split_and!; try done. by eexists.
Qed.

Lemma gesture_without_position_is_dropped_witness :
  let gutter :=
    {| elem := 30%nat; td := Some 3%nat; loc := None;
       isDiffHunkNum := false; id := EmptyString |} in
  let w := step Example.start (Mouse mouseover gutter) in
  same_pipes w (step w DebounceElapsed) ∧
  trace (step w DebounceElapsed) =
    trace w ++ [E_createTooltips; E_convertNode 3%nat].
Proof.
  cbv zeta.
  destruct (gesture_without_position_is_dropped
              (step Example.start
                 (Mouse mouseover
                    {| elem := 30%nat; td := Some 3%nat; loc := None;
                       isDiffHunkNum := false; id := EmptyString |}))
              mouseover
              {| elem := 30%nat; td := Some 3%nat; loc := None;
                 isDiffHunkNum := false; id := EmptyString |})
    as (_ & H & _).
  - reflexivity.
  - reflexivity.
  - split; [exact H|reflexivity].
Defined.

(** *** What every run keeps *)

(** The handlers, down to the operations on the document and the chains. *)
Ltac unfold_handlers :=
  unfold on_event, on_mouse, on_debounce, on_loading, on_mouseout,
    on_keydown, setElement_null, componentWillUnmount, gesture_event,
    gesture_notifier_next, gesture_tooltip_next, gesture_interval_tick,
    gesture_error, gesture_subscriber, fixed_hover_next, fixed_jump_next,
    fixed_error, fixed_tap, fixed_subscriber, fixedTooltip_next,
    dock_or_clear, handleGoToDefinition, handleFindReferences,
    handleDismiss, setFixedTooltip, getTooltip_next, updateTooltip,
    hideTooltip.

Lemma paired_emit e : not_lookup e → preserves lookups_paired (emit e).
Proof.
  intros N w H. unfold lookups_paired in *. destruct_world w. exec.
  read_trace. rewrite H. by destruct e.
Qed.

Ltac paired_untouched :=
  intros w H; unfold lookups_paired in *; destruct_world w; by exec.

Lemma paired_new_id : preserves lookups_paired new_id.
Proof. paired_untouched. Qed.
Lemma paired_set_state d : preserves lookups_paired (set_state d).
Proof. paired_untouched. Qed.
Lemma paired_set_dom f : preserves lookups_paired (set_dom f).
Proof. paired_untouched. Qed.
Lemma paired_set_open r s : preserves lookups_paired (set_open r s).
Proof. paired_untouched. Qed.
Lemma paired_set_debounce d : preserves lookups_paired (set_debounce d).
Proof. paired_untouched. Qed.
Lemma paired_set_gestureInner g :
  preserves lookups_paired (set_gestureInner g).
Proof. paired_untouched. Qed.
Lemma paired_set_fixedInner f : preserves lookups_paired (set_fixedInner f).
Proof. paired_untouched. Qed.

Lemma paired_gesture_switchMap ty t c :
  preserves lookups_paired (gesture_switchMap ty t c).
Proof.
  intros w H. unfold lookups_paired in *. destruct_world w. exec.
  read_trace. by rewrite H.
Qed.

Lemma paired_start_fixed d :
  preserves lookups_paired (fixed_switchMap (Some d)).
Proof.
  intros w H. unfold lookups_paired in *. destruct_world w. exec.
  read_trace. by rewrite H.
Qed.

Create HintDb paired.
#[local] Hint Resolve paired_new_id paired_set_state paired_set_dom
  paired_set_open paired_set_debounce paired_set_gestureInner
  paired_set_fixedInner paired_gesture_switchMap paired_start_fixed
  preserves_ret preserves_skip preserves_gets : paired.
#[local] Hint Extern 1 (preserves lookups_paired (emit _)) =>
  apply paired_emit; exact I : paired.

Lemma paired_on_event e : preserves lookups_paired (on_event e).
Proof.
  destruct e; unfold_handlers;
    unfold gesture_tap, remove_selection_highlight,
      remove_selection_highlight_sticky, add_selection_highlight,
      add_selection_highlight_sticky, set_cursor_pointer, add_annotated,
      set_shown;
    cbv zeta.
  all: preserves_auto paired.
Qed.

(** X12.  In every state the component reaches, the definition lookup was
    called for exactly the positions the hover lookup was called for, in
    the same order: no hover is looked up without its definition, by a
    gesture or by a docking. *)
Theorem every_hover_lookup_has_its_definition_lookup w :
  reachable w → hover_lookups (trace w) = jump_lookups (trace w).
Proof.
  apply (reachable_invariant lookups_paired).
  - intros p d. destruct d. by exec.
  - intros w' e. apply paired_on_event.
Qed.

Lemma every_hover_lookup_has_its_definition_lookup_witness :
  let w := run Example.start Example.hover_then_click_A in
  hover_lookups (trace w) = [Example.ctxA; Example.ctxA; Example.ctxA] ∧
  hover_lookups (trace w) = jump_lookups (trace w).
Proof.
  cbv zeta. split; [reflexivity|].
  apply (every_hover_lookup_has_its_definition_lookup
           (run Example.start Example.hover_then_click_A)).
  exists Example.the_props, Example.empty_dom, Example.hover_then_click_A.
  reflexivity.
Defined.

Lemma converted_emit e : not_convertNode e → preserves converted_ok (emit e).
Proof.
  intros N w H. unfold converted_ok in *. destruct_world w. exec.
  read_trace. destruct e; try done; by rewrite app_nil_r.
Qed.

Ltac converted_untouched :=
  intros w H; unfold converted_ok in *; destruct_world w; by exec.

Lemma converted_new_id : preserves converted_ok new_id.
Proof. converted_untouched. Qed.
Lemma converted_set_state d : preserves converted_ok (set_state d).
Proof. converted_untouched. Qed.
Lemma converted_set_open r s : preserves converted_ok (set_open r s).
Proof. converted_untouched. Qed.
Lemma converted_set_debounce d : preserves converted_ok (set_debounce d).
Proof. converted_untouched. Qed.
Lemma converted_set_gestureInner g :
  preserves converted_ok (set_gestureInner g).
Proof. converted_untouched. Qed.
Lemma converted_set_fixedInner f : preserves converted_ok (set_fixedInner f).
Proof. converted_untouched. Qed.
Lemma converted_remove_selection_highlight :
  preserves converted_ok remove_selection_highlight.
Proof. converted_untouched. Qed.
Lemma converted_remove_selection_highlight_sticky :
  preserves converted_ok remove_selection_highlight_sticky.
Proof. converted_untouched. Qed.
Lemma converted_add_selection_highlight el :
  preserves converted_ok (add_selection_highlight el).
Proof. converted_untouched. Qed.
Lemma converted_add_selection_highlight_sticky el :
  preserves converted_ok (add_selection_highlight_sticky el).
Proof. converted_untouched. Qed.
Lemma converted_set_cursor_pointer el :
  preserves converted_ok (set_cursor_pointer el).
Proof. converted_untouched. Qed.
Lemma converted_set_shown t : preserves converted_ok (set_shown t).
Proof. converted_untouched. Qed.

(** The tap converts a cell only if it is not annotated yet, and annotates
    it. *)
Lemma converted_gesture_tap tgt : preserves converted_ok (gesture_tap tgt).
Proof.
  intros w [N A]. unfold converted_ok, gesture_tap in *.
  destruct (td tgt) as [cell|]; destruct_world w; exec; read_trace;
    [|done].
  destruct (bool_decide (cell ∈ annotated_)) eqn:E; cbn [negb]; exec;
    read_trace; [done|].
  apply bool_decide_eq_false in E. split.
  - apply NoDup_app. split_and!; [done| |apply NoDup_singleton].
    intros x Hx ->%list_elem_of_singleton. by apply E, A.
  - intros x [Hx| ->%list_elem_of_singleton]%elem_of_app;
      apply elem_of_union; [right; by apply A|left; by apply elem_of_singleton].
Qed.

Create HintDb cells.
#[local] Hint Resolve converted_new_id converted_set_state
  converted_set_open converted_set_debounce converted_set_gestureInner
  converted_set_fixedInner converted_remove_selection_highlight
  converted_remove_selection_highlight_sticky
  converted_add_selection_highlight converted_add_selection_highlight_sticky
  converted_set_cursor_pointer converted_set_shown converted_gesture_tap
  preserves_ret preserves_skip preserves_gets : cells.
#[local] Hint Extern 1 (preserves converted_ok (emit _)) =>
  apply converted_emit; exact I : cells.

Lemma converted_on_event e : preserves converted_ok (on_event e).
Proof.
  destruct e; unfold_handlers;
    unfold gesture_switchMap, fixed_switchMap, getTooltip, getDefinition,
      call_getHover, call_getJumpURL, subscribe;
    cbv zeta.
  all: preserves_auto cells.
Qed.

(** X13.  In every state the component reaches, no cell was handed to
    [convertNode] twice, however often the pointer comes back to it, and
    every cell that was converted carries the class [annotated]. *)
Theorem cell_is_converted_once w :
  reachable w →
  NoDup (converted (trace w)) ∧
  ∀ cell, cell ∈ converted (trace w) → cell ∈ annotated (dom w).
Proof.
  apply (reachable_invariant converted_ok).
  - intros p d. destruct d. unfold converted_ok. exec. cbn. split.
    + constructor.
    + by intros cell H%elem_of_nil.
  - intros w' e. apply converted_on_event.
Qed.

Lemma cell_is_converted_once_witness :
  let w := run Example.start Example.hover_then_click_A in
  converted (trace w) = [1%nat] ∧ NoDup (converted (trace w)).
Proof.
  cbv zeta. split; [reflexivity|].
  apply (cell_is_converted_once
           (run Example.start Example.hover_then_click_A)).
  exists Example.the_props, Example.empty_dom, Example.hover_then_click_A.
  reflexivity.
Defined.

(** *** Errors and empty answers *)

Lemma step_hover_error w s err :
  step w (HoverError s err) =
    match hover_owner w s with
    | GestureNotifier g | GestureTooltip g => (gesture_error g err w).2
    | FixedHover f => (fixed_error f err w).2
    | _ => w
    end.
Proof.
  unfold step, on_event, mbind, M_bind, gets. cbn.
  by destruct (hover_owner w s).
Qed.

Lemma step_jump_error w s err :
  step w (JumpError s err) =
    match jump_owner w s with
    | FixedJump f => (fixed_jump_next f (Some (Error err)) w).2
    | _ => w
    end.
Proof.
  unfold step, on_event, mbind, M_bind, gets. cbn.
  by destruct (jump_owner w s).
Qed.

Lemma no_contents_empty c : no_contents c = true → isEmptyHover c = true.
Proof. by destruct c. Qed.

(** X14.  A docking whose hover lookup fails, or answers without contents,
    leaves nothing docked: whatever was docked or on display before, the
    view is idle afterwards.  A failure also ends the docking chain, and it
    is written to the console unless its code is [EMODENOTFOUND]. *)
Theorem docking_without_hover_clears w s f :
  hover_owner w s = FixedHover f →
  (∀ err,
     let w' := step w (HoverError s err) in
     idle w' ∧ fixedInner w' = None ∧
     trace w' =
       trace w ++
       (if is_EMODENOTFOUND err then [] else [E_console_error err]) ++
       [E_hideTooltip]) ∧
  (∀ data,
     no_contents (hover_contents data) = true →
     let w' := step w (HoverNext s data) in
     idle w' ∧ cursor_pointer (dom w') = cursor_pointer (dom w)).
Proof.
  intros O. split.
  - intros err. cbv zeta. rewrite step_hover_error, O.
    destruct_world w. destruct f as [t c h hv j jv].
    unfold fixed_error. destruct (is_EMODENOTFOUND err); exec; cbn;
      rewrite <- ?app_assoc; by split_and!.
  - intros data C. cbv zeta. rewrite step_hover_next, O.
    destruct_world w. destruct f as [t c h hv j jv].
    unfold fixed_hover_next, getTooltip_next.
    rewrite (no_contents_empty _ C). cbn [negb]. exec. rewrite C. exec.
    destruct jv; exec; rewrite ?C; exec; by split_and!.
Qed.

Lemma docking_without_hover_clears_witness :
  let w := run Example.docked_A Example.click_B in
  state_fixedTooltip w = Some Example.tooltipA ∧
  idle (step w (HoverError 14%nat
                  {| code := OtherCode 500; message := "failed" |})) ∧
  idle (step w (HoverNext 14%nat {| hover_contents := Some [] |})).
Proof.
  cbv zeta. split; [reflexivity|].
  destruct (docking_without_hover_clears
              (run Example.docked_A Example.click_B) 14%nat Example.chain_B)
    as [E N].
  - vm_compute. reflexivity.
  - split.
    + exact (proj1 (E {| code := OtherCode 500; message := "failed" |})).
    + apply (N {| hover_contents := Some [] |}). reflexivity.
Defined.

(** X15.  A failure of the definition lookup of a docking chain does not
    take the tooltip down.  When the hover lookup has answered with
    contents, the tooltip is docked and displayed with the error in the
    place of the definition, the docking is logged as
    ["TooltipDockedWithDefinition"], nothing is written to the console, and
    the chain ends. *)
Theorem definition_error_is_docked w s f tooltip err :
  jump_owner w s = FixedJump f →
  f_hoverValue f = Some tooltip →
  no_contents (contents tooltip) = false →
  let w' := step w (JumpError s err) in
  let data :=
    {| target := target tooltip; ctx := ctx tooltip;
       contents := contents tooltip; loading := loading tooltip;
       defUrlOrError := Some (Error err) |} in
  state_fixedTooltip w' = Some data ∧
  shown (dom w') = Some (data, true) ∧
  selection_highlight_sticky (dom w') = {[target tooltip]} ∧
  fixedInner w' = None ∧
  trace w' =
    trace w ++
    [E_eventLogger_log "TooltipDockedWithDefinition" (Some true);
     E_updateTooltip data true].
Proof.
  intros O V C. cbv zeta. rewrite step_jump_error, O.
  destruct_world w. destruct f as [t c h hv j jv]. cbn in V. subst hv.
  destruct tooltip as [tt tc tcont tl td]. cbn in C.
  unfold fixed_jump_next. exec. cbn [or_undefined]. rewrite C. exec.
  rewrite <- !app_assoc. split_and!; try done. apply union_empty_r_L.
Qed.

Lemma definition_error_is_docked_witness :
  let err := {| code := OtherCode 500; message := "failed" |} in
  let w' := step Example.docked_A (JumpError 7%nat err) in
  defUrlOrError <$> state_fixedTooltip w' = Some (Some (Error err)) ∧
  fixedInner w' = None.
Proof.
  cbv zeta.
  destruct (definition_error_is_docked Example.docked_A 7%nat
              {| f_target := 10%nat; f_ctx := Example.ctxA;
                 f_hover := None; f_hoverValue := Some Example.tooltipA;
                 f_jump := Some 7%nat; f_jumpValue := None |}
              Example.tooltipA
              {| code := OtherCode 500; message := "failed" |})
    as (H1 & _ & _ & H4 & _).
  - vm_compute. reflexivity.
  - reflexivity.
  - reflexivity.
  - split; [by rewrite H1|exact H4].
Defined.

(** X16.  Dismissing does not cancel the docking chain.  When the tooltip
    is dismissed (with the Escape key) while its definition lookup is still
    out, the view is idle; but when that lookup answers, the tooltip is
    docked and displayed again, with the definition. *)
Theorem dismissed_tooltip_docks_again w s f tooltip url :
  subscriptions w = true →
  jump_owner w s = FixedJump f →
  f_hoverValue f = Some tooltip →
  no_contents (contents tooltip) = false →
  let w1 := step w (KeyDown "Escape") in
  let w2 := step w1 (JumpNext s url) in
  let data :=
    with_definition tooltip
      (match url with Some u => Some (Url u) | None => None end) in
  idle w1 ∧ fixedInner w1 = fixedInner w ∧
  state_fixedTooltip w2 = Some data ∧
  shown (dom w2) = Some (data, true) ∧
  selection_highlight_sticky (dom w2) = {[target tooltip]}.
Proof.
  intros Sub O V C. cbv zeta.
  assert (idle (step w (KeyDown "Escape")) ∧
          fixedInner (step w (KeyDown "Escape")) = fixedInner w ∧
          jump_owner (step w (KeyDown "Escape")) s = FixedJump f)
    as (I & F & O').
  { rewrite <- O. destruct_world w. cbn in Sub. subst. exec.
    unfold jump_owner. exec. by split_and!. }
  split_and!; [done..| | |]; rewrite step_jump_next, O';
    clear I F O O'; generalize (step w (KeyDown "Escape")); intros w1;
    destruct_world w1; destruct f as [t c h hv j jv]; cbn in V; subst hv;
    destruct tooltip as [tt tc tcont tl td]; cbn in C;
    unfold fixed_jump_next; exec; rewrite C; exec;
    destruct url as [u|]; cbn [or_undefined];
    try destruct (String.eqb u EmptyString); exec;
    try done; apply union_empty_r_L.
Qed.

Lemma dismissed_tooltip_docks_again_witness :
  let w1 := step Example.docked_A (KeyDown "Escape") in
  idle w1 ∧
  state_fixedTooltip (step w1 (JumpNext 7%nat (Some "/mux.go#L3"))) =
    Some (with_definition Example.tooltipA (Some (Url "/mux.go#L3"))).
Proof.
  cbv zeta.
  destruct (dismissed_tooltip_docks_again Example.docked_A 7%nat
              {| f_target := 10%nat; f_ctx := Example.ctxA;
                 f_hover := None; f_hoverValue := Some Example.tooltipA;
                 f_jump := Some 7%nat; f_jumpValue := None |}
              Example.tooltipA (Some "/mux.go#L3"))
    as (H1 & _ & H3 & _).
  - reflexivity.
  - vm_compute. reflexivity.
  - reflexivity.
  - reflexivity.
  - split; [exact H1|exact H3].
Defined.



(** *** A docked tooltip and the pointer *)




(** X19.  In every state the component reaches, the sticky class is on the
    target of the docked tooltip and on no other element, and a tooltip is
    displayed as docked exactly when it is the docked one. *)
Theorem sticky_class_marks_the_docked_target w :
  reachable w →
  selection_highlight_sticky (dom w) =
    match state_fixedTooltip w with Some d => {[target d]} | None => ∅ end ∧
  ∀ d, shown (dom w) = Some (d, true) ↔ state_fixedTooltip w = Some d.
Proof.
  intros R. destruct (docked_reachable w R) as [S D]. split; [done|].
  intros d. destruct (state_fixedTooltip w) as [d'|].
  - rewrite D. split; by intros [= ->].
  - split; [|done]. intros H. by destruct (D d).
Qed.

Lemma sticky_class_marks_the_docked_target_witness :
  state_fixedTooltip Example.docked_A = Some Example.tooltipA ∧
  selection_highlight_sticky (dom Example.docked_A) = {[10%nat]}.
Proof.
  split; [reflexivity|].
  destruct (sticky_class_marks_the_docked_target Example.docked_A) as [H _].
  - exists Example.the_props, Example.empty_dom,
      (Example.click_A ++ [HoverNext 6%nat Example.hoverA]).
    reflexivity.
  - exact H.
Defined.

(** *** The line numbers *)

Lemma hashes_snoc tr e :
  hashes (tr ++ [e]) =
  hashes tr ++ match e with E_history_push (Hash h) => [h] | _ => [] end.
Proof.
  unfold hashes. rewrite omap_app. destruct e as [| | | | | | | | | | |[]];
    done.
Qed.

Lemma pushed_emit hs e : not_hash_push e → preserves (pushed hs) (emit e).
Proof.
  intros N w [S H]. unfold pushed. destruct_world w. exec.
  rewrite hashes_snoc, H. destruct e as [| | | | | | | | | | |[]];
    by rewrite ?app_nil_r.
Qed.

Ltac pushed_untouched :=
  intros w [S H]; unfold pushed; destruct_world w; by exec.

Lemma pushed_new_id hs : preserves (pushed hs) new_id.
Proof. pushed_untouched. Qed.
Lemma pushed_set_state hs d : preserves (pushed hs) (set_state d).
Proof. pushed_untouched. Qed.
Lemma pushed_set_dom hs f : preserves (pushed hs) (set_dom f).
Proof. pushed_untouched. Qed.
Lemma pushed_set_debounce hs d : preserves (pushed hs) (set_debounce d).
Proof. pushed_untouched. Qed.
Lemma pushed_set_gestureInner hs g :
  preserves (pushed hs) (set_gestureInner g).
Proof. pushed_untouched. Qed.
Lemma pushed_set_fixedInner hs f : preserves (pushed hs) (set_fixedInner f).
Proof. pushed_untouched. Qed.

Create HintDb gutter.
#[local] Hint Resolve pushed_new_id pushed_set_state pushed_set_dom
  pushed_set_debounce pushed_set_gestureInner pushed_set_fixedInner
  preserves_ret preserves_skip preserves_gets : gutter.
#[local] Hint Extern 1 (preserves (pushed _) (emit _)) =>
  apply pushed_emit; exact I : gutter.

Lemma pushed_step hs w e :
  is_unmount e = false → pushed hs w →
  pushed (hs ++ gutter_clicks [e]) (step w e).
Proof.
  intros U P. destruct e; try done.
  1: { destruct P as [S H]. unfold pushed, gutter_clicks, pushes_hash, is_click.
       cbn [omap list_omap]. destruct_world w. cbn [subscriptions] in S. cbn [trace] in H.
       subst subs_.
       destruct ref_; exec; cbn [andb];
         destruct (_ && _ && _)%bool; exec;
         rewrite ?hashes_snoc, ?app_nil_r; by rewrite H. }
  12: { destruct P as [S H]. unfold pushed. rewrite app_nil_r.
        destruct_world w. cbn [subscriptions] in S. cbn [trace] in H.
       subst subs_. by exec. }
  all: cbn [gutter_clicks omap list_omap]; rewrite app_nil_r;
    revert w P;
    match goal with
    | |- ∀ w, pushed _ w → pushed _ (step w ?e) =>
        change (preserves (pushed hs) (on_event e))
    end;
    unfold_handlers;
    unfold gesture_tap, gesture_switchMap, fixed_switchMap, getTooltip,
      getDefinition, call_getHover, call_getJumpURL, subscribe,
      remove_selection_highlight, remove_selection_highlight_sticky,
      add_selection_highlight, add_selection_highlight_sticky,
      set_cursor_pointer, add_annotated, set_shown;
    cbv zeta; preserves_auto gutter.
Qed.

(** X20.  While the component is mounted, the hashes pushed onto the
    history are the ids of the line-number cells that were clicked, in the
    order of the clicks: every such click pushes at once, without waiting
    for the debounce, also after the table element was released, and
    nothing else pushes a hash. *)
Theorem pushed_hashes_are_the_clicked_line_numbers w es :
  subscriptions w = true →
  Forall (λ e, is_unmount e = false) es →
  hashes (trace (run w es)) = hashes (trace w) ++ gutter_clicks es.
Proof.
  intros S H.
  assert (pushed (hashes (trace w)) w) as P by done.
  revert P. generalize (hashes (trace w)). clear S. revert w.
  induction H as [|e es He _ IH]; intros w hs P.
  - cbn. rewrite app_nil_r. apply P.
  - cbn [run fold_left]. fold (run (step w e) es).
    rewrite (IH _ _ (pushed_step _ _ _ He P)).
    change (e :: es) with ([e] ++ es). unfold gutter_clicks.
    by rewrite omap_app, app_assoc.
Qed.

Lemma pushed_hashes_are_the_clicked_line_numbers_witness :
  let num :=
    {| elem := 40%nat; td := Some 4%nat; loc := None;
       isDiffHunkNum := true; id := "diff-0R12" |} in
  hashes (trace (run Example.docked_A
                   [Mouse mouseover num; SetElementNull; Mouse click num;
                    Mouse click Example.tgtB; DebounceElapsed])) =
  ["diff-0R12"].
Proof.
  cbv zeta.
  rewrite (pushed_hashes_are_the_clicked_line_numbers Example.docked_A).
  - reflexivity.
  - reflexivity.
  - repeat constructor.
Defined.

(** *** The answer of a gesture *)





End TooltipFacts.
